(** * md2pdf: the Markdown parser and inline formatter of [src/md2pdf.py]

  A shallow embedding of [MarkdownToPDF.parse_markdown] and
  [MarkdownToPDF._format_inline], together with the parts of Python's
  [str] and [re] that the two methods call.

  Conventions of the embedding.
  - A Python [str] is a [list ascii]; a character is a code point below
    256, and the tables for whitespace ([str.isspace], [\s]) and word
    characters ([\w], [\b]) are Python's Unicode tables on that range.
  - The ReportLab flowables the parser appends are values of an inductive
    type; a length [x*inch] is kept as the integer [100*x] (hundredths of
    an inch), so [Spacer(1, 0.2*inch)] is [Spacer 1 20].
  - The [while] loop over [lines] is a left fold of the loop body [step]
    over the list of lines; the local variables of the method are the
    fields of the record [state].
  - ReportLab's [Paragraph(text, style)] parses the markup of its text
    and can raise [ValueError].  [MarkdownToPDF.step] is the loop body
    when every constructor returns; [Checked.step] is the loop body with
    that error, the test of the constructor being a parameter of it, and
    [CheckedFacts.parse_lines_checked] relates the two. *)

From Stdlib Require Import List String Ascii Bool Arith ZArith Lia.
From Stdlib Require Import DecimalString.
Import ListNotations.

(** ** Text *)

Definition text := list ascii.

(** A string literal as a [text]. *)
Definition str (s : string) : text := list_ascii_of_string s.

Definition text_eqb (a b : text) : bool :=
if list_eq_dec ascii_dec a b then true else false.

(** ** Python's [str] methods used by the source *)

Module Str.

Definition code (c : ascii) : nat := nat_of_ascii c.

(** [str.isspace] on one character (code points below 256). *)
Definition isspace (c : ascii) : bool :=
  let n := code c in
  ((9 <=? n) && (n <=? 13)) || ((28 <=? n) && (n <=? 32))
  || (n =? 133) || (n =? 160).

Fixpoint lstrip (s : text) : text :=
  match s with
  | c :: s' => if isspace c then lstrip s' else s
  | [] => []
  end.

Fixpoint rstrip (s : text) : text :=
  match s with
  | c :: s' =>
      match rstrip s' with
      | [] => if isspace c then [] else [c]
      | r => c :: r
      end
  | [] => []
  end.

(** [s.strip()] *)
Definition strip (s : text) : text := rstrip (lstrip s).

(** [s.startswith(p)], with the remainder when it holds. *)
Fixpoint strip_prefix (p s : text) : option text :=
  match p, s with
  | [], _ => Some s
  | a :: p', c :: s' => if Ascii.eqb a c then strip_prefix p' s' else None
  | _ :: _, [] => None
  end.

Definition startswith (s p : text) : bool :=
  match strip_prefix p s with Some _ => true | None => false end.

(** [s.startswith((p1, p2, ...))] *)
Definition startswith_any (s : text) (ps : list text) : bool :=
  existsb (startswith s) ps.

(** [s.replace(old, new)] for a non-empty [old]: every occurrence, left
    to right, without overlap.  The fuel is the length of the input. *)
Fixpoint replace_from (old new : text) (fuel : nat) (s : text) : text :=
  match fuel with
  | 0 => s
  | S fuel' =>
      match strip_prefix old s with
      | Some rest => new ++ replace_from old new fuel' rest
      | None =>
          match s with
          | c :: s' => c :: replace_from old new fuel' s'
          | [] => []
          end
      end
  end.

Definition replace (old new s : text) : text :=
  replace_from old new (List.length s) s.

Definition newline : ascii := ascii_of_nat 10.

(** [s.split('\n')] *)
Fixpoint split_lines (s : text) : list text :=
  match s with
  | [] => [[]]
  | c :: s' =>
      if Ascii.eqb c newline then [] :: split_lines s'
      else match split_lines s' with
           | l :: ls => (c :: l) :: ls
           | [] => [[c]]
           end
  end.

(** ['\n'.join(ls)] *)
Fixpoint join_lines (ls : list text) : text :=
  match ls with
  | [] => []
  | [l] => l
  | l :: ls' => l ++ newline :: join_lines ls'
  end.

(** [str(n)] for a non-negative integer. *)
Definition of_nat (n : nat) : text :=
  str (NilEmpty.string_of_uint (Nat.to_uint n)).

End Str.

(** ** Python's [re]: the fragment the source's patterns are written in *)

Module Re.

Inductive atom : Type :=
| Lit (c : ascii)             (* a literal character, escaped or not *)
| Cls (f : ascii -> bool)     (* a character class, one character *)
| ClsPlus (f : ascii -> bool) (* a class under greedy [+] *)
| Group                       (* [(.+?)]: a capture group, lazy *)
| WordB                       (* [\b] *)
| Bos.                        (* [^] *)

Definition pattern := list atom.

(** [\w] on one character (code points below 256). *)
Definition isword (c : ascii) : bool :=
  let n := Str.code c in
  ((48 <=? n) && (n <=? 57)) || ((65 <=? n) && (n <=? 90))
  || (n =? 95) || ((97 <=? n) && (n <=? 122))
  || (n =? 170) || (n =? 178) || (n =? 179) || (n =? 181)
  || (n =? 185) || (n =? 186) || ((188 <=? n) && (n <=? 190))
  || ((192 <=? n) && (n <=? 214)) || ((216 <=? n) && (n <=? 246))
  || (248 <=? n).

Definition isword_opt (c : option ascii) : bool :=
  match c with Some c => isword c | None => false end.

(** [\b] holds between [prev] and the head of [s] when exactly one of
    the two is a word character; outside the string counts as none. *)
Definition word_boundary (prev : option ascii) (s : text) : bool :=
  xorb (isword_opt prev) (isword_opt (hd_error s)).

(** [.] without DOTALL *)
Definition dot (c : ascii) : bool := negb (Ascii.eqb c Str.newline).

Definition result : Type := option (list text * option ascii * text).

(** [(.+?)] followed by the rest of the pattern [k]: the group takes one
    character and grows only when [k] fails after it. *)
Fixpoint lazy_group (k : ascii -> text -> result) (s : text) : result :=
  match s with
  | d :: s' =>
      if dot d then
        match k d s' with
        | Some (gs, last, rest) => Some ([d] :: gs, last, rest)
        | None =>
            match lazy_group k s' with
            | Some (g :: gs, last, rest) => Some ((d :: g) :: gs, last, rest)
            | _ => None
            end
        end
      else None
  | [] => None
  end.

(** A class under greedy [+] followed by the rest of the pattern [k]: it
    takes all the characters it can and gives back while [k] fails. *)
Fixpoint greedy_plus (f : ascii -> bool) (k : ascii -> text -> result)
  (s : text) : result :=
  match s with
  | d :: s' =>
      if f d then
        match greedy_plus f k s' with
        | Some r => Some r
        | None => k d s'
        end
      else None
  | [] => None
  end.

(** A match of the pattern at the head of [s], [prev] being the character
    before it ([None] at the start of the string).  The result is the
    captured groups, the last character before the rest, and the rest;
    alternatives are tried in the order of a backtracking matcher. *)
Fixpoint match_here (p : pattern) (prev : option ascii) (s : text)
  {struct p} : result :=
  match p with
  | [] => Some ([], prev, s)
  | Lit c :: p' =>
      match s with
      | d :: s' => if Ascii.eqb c d then match_here p' (Some d) s' else None
      | [] => None
      end
  | Cls f :: p' =>
      match s with
      | d :: s' => if f d then match_here p' (Some d) s' else None
      | [] => None
      end
  | ClsPlus f :: p' =>
      greedy_plus f (fun d s' => match_here p' (Some d) s') s
  | Group :: p' =>
      lazy_group (fun d s' => match_here p' (Some d) s') s
  | WordB :: p' =>
      if word_boundary prev s then match_here p' prev s else None
  | Bos :: p' =>
      match prev with
      | None => match_here p' prev s
      | Some _ => None
      end
  end.

(** [m.group(n)] *)
Definition group (n : nat) (gs : list text) : text := nth (n - 1) gs [].

Section Sub.
Variable St : Type.
Variable p : pattern.
(** The replacement: a callable, which may update a state. *)
Variable repl : St -> list text -> St * text.

(** [re.sub]: leftmost matches, without overlap.  No pattern of the
    source matches the empty string, so every match consumes input and
    a fuel of the length of the input is never used up. *)
Fixpoint sub_from (fuel : nat) (prev : option ascii) (st : St) (s : text)
  : St * text :=
  match fuel with
  | 0 => (st, s)
  | S fuel' =>
      match s with
      | [] => (st, [])
      | c :: s' =>
          match match_here p prev s with
          | Some (gs, last, rest) =>
              let (st1, out) := repl st gs in
              let (st2, tl) := sub_from fuel' last st1 rest in
              (st2, out ++ tl)
          | None =>
              let (st2, tl) := sub_from fuel' (Some c) st s' in
              (st2, c :: tl)
          end
      end
  end.

Definition sub_with (st : St) (s : text) : St * text :=
  sub_from (List.length s) None st s.
End Sub.

Arguments sub_from {St} p repl fuel prev st s.
Arguments sub_with {St} p repl st s.

(** [re.sub(p, template, s)] with a template string. *)
Definition sub (p : pattern) (template : list text -> text) (s : text)
  : text :=
  snd (sub_with p (fun (_ : unit) gs => (tt, template gs)) tt s).

End Re.

(** ** The converter *)

Module MarkdownToPDF.

(** The entries of [self.styles] the parser uses. *)
Inductive style : Type := Heading1 | Heading2 | Heading3 | Code | CustomBody.

(** A paragraph that [Paragraph(text, style)] has returned: the text and
    the style it was given.  The call itself can raise [ValueError]; it
    is [Checked.new_paragraph] below. *)
Record paragraph : Type := Paragraph { para_text : text; para_style : style }.

(** The flowables appended by [parse_markdown].  [start] is the code
    point of the [start] argument of [ListFlowable], when it is given. *)
Inductive flowable : Type :=
| Preformatted (code_text : text) (st : style)
| Spacer (width : Z) (height : Z)
| Para (p : paragraph)
| ListFlowable (items : list paragraph) (bulletType : text) (start : option N)
| PageBreak.

(** *** [_format_inline] *)

Definition amp : text := str "&".
Definition lt : text := str "<".
Definition gt : text := str ">".

(** The three [replace] calls that escape XML special characters. *)
Definition escape (t : text) : text :=
  let t := Str.replace amp (str "&amp;") t in
  let t := Str.replace lt (str "&lt;") t in
  Str.replace gt (str "&gt;") t.

(** [f'__CODE_PLACEHOLDER_{i}__'] *)
Definition placeholder (i : nat) : text :=
  str "__CODE_PLACEHOLDER_" ++ Str.of_nat i ++ str "__".

(** The closure [save_code]; its state is the list [code_parts]. *)
Definition save_code (code_parts : list text) (gs : list text)
  : list text * text :=
  let code_parts := code_parts ++ [Re.group 1 gs] in
  (code_parts, placeholder (List.length code_parts - 1)).

Import Re.

(** [r'`(.+?)`'] *)
Definition re_code : pattern := [Lit "`"; Group; Lit "`"].
(** [r'\*\*(.+?)\*\*'] *)
Definition re_bold_star : pattern :=
  [Lit "*"; Lit "*"; Group; Lit "*"; Lit "*"].
(** [r'__(.+?)__'] *)
Definition re_bold_under : pattern :=
  [Lit "_"; Lit "_"; Group; Lit "_"; Lit "_"].
(** [r'\*(.+?)\*'] *)
Definition re_italic_star : pattern := [Lit "*"; Group; Lit "*"].
(** [r'\b_(.+?)_\b'] *)
Definition re_italic_under : pattern :=
  [WordB; Lit "_"; Group; Lit "_"; WordB].
(** [r'\[(.+?)\]\((.+?)\)'] *)
Definition re_link : pattern :=
  [Lit "["; Group; Lit "]"; Lit "("; Group; Lit ")"].

(** [r'<b>\1</b>'] *)
Definition bold (gs : list text) : text :=
  str "<b>" ++ group 1 gs ++ str "</b>".
(** [r'<i>\1</i>'] *)
Definition italic (gs : list text) : text :=
  str "<i>" ++ group 1 gs ++ str "</i>".
(** The double quote of the attribute values. *)
Definition dq : ascii := ascii_of_nat 34.

(** [r'<font color="blue"><u>\1</u></font>'] *)
Definition link_open : text :=
  str "<font color=" ++ dq :: str "blue" ++ dq :: str "><u>".
Definition link_close : text := str "</u></font>".
Definition link (gs : list text) : text :=
  link_open ++ group 1 gs ++ link_close.

(** [f'<font name="Courier" color="#c7254e" backColor="#f9f2f4">{code}</font>'] *)
Definition code_open : text :=
  str "<font name=" ++ dq :: str "Courier" ++ dq ::
  str " color=" ++ dq :: str "#c7254e" ++ dq ::
  str " backColor=" ++ dq :: str "#f9f2f4" ++ dq :: str ">".
Definition code_close : text := str "</font>".

(** The loop [for i, code in enumerate(code_parts)], from index [i]. *)
Fixpoint restore (i : nat) (code_parts : list text) (t : text) : text :=
  match code_parts with
  | [] => t
  | code :: rest =>
      restore (S i) rest
        (Str.replace (placeholder i) (code_open ++ code ++ code_close) t)
  end.

(** The regular-expression stages between the code spans and the
    restoring loop, in the order of the source. *)
Definition emphasis (t : text) : text :=
  let t := sub re_bold_star bold t in
  let t := sub re_bold_under bold t in
  let t := sub re_italic_star italic t in
  let t := sub re_italic_under italic t in
  sub re_link link t.

Definition _format_inline (t : text) : text :=
  let t := escape t in
  let (code_parts, t) := sub_with re_code save_code [] t in
  let t := emphasis t in
  restore 0 code_parts t.


(** *** [parse_markdown] *)

(** The local variables of the method that live across iterations. *)
Record state : Type := State {
  flowables : list flowable;
  in_code_block : bool;
  code_block_lines : list text;
  in_list : bool;
  list_items : list paragraph
}.

Definition initial : state :=
  {| flowables := []; in_code_block := false; code_block_lines := [];
     in_list := false; list_items := [] |}.

(** [flowables.append(f)] for each [f] of [fs], in order. *)
Definition emit (fs : list flowable) (st : state) : state :=
  {| flowables := flowables st ++ fs;
     in_code_block := in_code_block st;
     code_block_lines := code_block_lines st;
     in_list := in_list st; list_items := list_items st |}.

(** [in_list = False; list_items = []] *)
Definition close_list (st : state) : state :=
  {| flowables := flowables st;
     in_code_block := in_code_block st;
     code_block_lines := code_block_lines st;
     in_list := false; list_items := [] |}.

(** Truth value of a Python list. *)
Definition truthy {A : Type} (l : list A) : bool :=
  match l with [] => false | _ :: _ => true end.

Definition bullet : text := str "bullet".

(** The statement repeated in the heading, rule and paragraph branches:
    [if in_list and list_items: flowables.append(ListFlowable(...));
     in_list = False; list_items = []]. *)
Definition flush_list (st : state) : state :=
  if in_list st && truthy (list_items st) then
    close_list (emit [ListFlowable (list_items st) bullet None] st)
  else st.

Definition fence : text := str "```".
Definition list_markers : list text := [str "-"; str "*"; str "+"].
Definition rules : list text := [str "---"; str "***"; str "___"].

(** [r'^[\-\*\+]\s+'] *)
Definition is_list_marker (c : ascii) : bool :=
  Ascii.eqb c "-" || Ascii.eqb c "*" || Ascii.eqb c "+".
Definition re_list_marker : pattern :=
  [Bos; Cls is_list_marker; ClsPlus Str.isspace].

(** One iteration of the [while] loop, on the line [lines[i]], when the
    constructors called in it return: the paragraphs hold the texts the
    constructors are given.  [Checked.step] below is the iteration with
    the [ValueError] of a constructor. *)
Definition step (st : state) (line : text) : state :=
  if Str.startswith (Str.strip line) fence then
    if negb (in_code_block st) then
      {| flowables := flowables st;
         in_code_block := true; code_block_lines := [];
         in_list := in_list st; list_items := list_items st |}
    else
      {| flowables := flowables st ++
           [Preformatted (Str.join_lines (code_block_lines st)) Code;
            Spacer 1 20];
         in_code_block := false; code_block_lines := [];
         in_list := in_list st; list_items := list_items st |}
  else if in_code_block st then
    {| flowables := flowables st;
       in_code_block := in_code_block st;
       code_block_lines := code_block_lines st ++ [line];
       in_list := in_list st; list_items := list_items st |}
  else if Str.startswith_any (Str.strip line) list_markers then
    let items := if negb (in_list st) then [] else list_items st in
    let item_text := sub re_list_marker (fun _ => []) (Str.strip line) in
    let item_text := _format_inline item_text in
    {| flowables := flowables st;
       in_code_block := in_code_block st;
       code_block_lines := code_block_lines st;
       in_list := true;
       list_items := items ++ [Paragraph item_text CustomBody] |}
  else if in_list st && text_eqb (Str.strip line) [] then
    close_list
      (if truthy (list_items st) then
         emit [ListFlowable (list_items st) bullet (Some 8226%N);
               Spacer 1 10] st
       else st)
  else if Str.startswith line (str "# ") then
    let text := _format_inline (Str.strip (skipn 2 line)) in
    emit [Para (Paragraph text Heading1); Spacer 1 15] (flush_list st)
  else if Str.startswith line (str "## ") then
    let text := _format_inline (Str.strip (skipn 3 line)) in
    emit [PageBreak; Para (Paragraph text Heading2); Spacer 1 12]
      (flush_list st)
  else if Str.startswith line (str "### ") then
    let text := _format_inline (Str.strip (skipn 4 line)) in
    emit [Para (Paragraph text Heading3); Spacer 1 10] (flush_list st)
  else if existsb (text_eqb (Str.strip line)) rules then
    emit [Spacer 1 20] (flush_list st)
  else if truthy (Str.strip line) then
    let text := _format_inline (Str.strip line) in
    emit [Para (Paragraph text CustomBody); Spacer 1 5] (flush_list st)
  else
    if in_list st && truthy (list_items st) then
      close_list
        (emit [ListFlowable (list_items st) bullet None; Spacer 1 10] st)
    else st.

(** The loop, then the statement after it ("Handle remaining list
    items") and the [return]. *)
Definition run (st : state) (lines : list text) : state :=
  fold_left step lines st.

Definition finish (st : state) : list flowable :=
  if in_list st && truthy (list_items st) then
    flowables st ++ [ListFlowable (list_items st) bullet None]
  else flowables st.

Definition parse_lines (lines : list text) : list flowable :=
  finish (run initial lines).

Definition parse_markdown (md_content : text) : list flowable :=
  parse_lines (Str.split_lines md_content).

End MarkdownToPDF.

(** * The paragraph constructor of the library *)

Module ReportLab.

(** [Paragraph(text, style)] of ReportLab parses the markup of [text]
    when the paragraph is constructed and raises [ValueError] when the
    parse fails.  The library is not part of the repository, and the
    parser of [Checked] takes the test of the constructor as a
    parameter.  This module writes down the one rule of that test which
    the texts returned by [_format_inline] can break.  In these texts
    every [<] begins one of the tags [<b>], [<i>], [<u>], [<font ...>]
    or the closing tag of one of them, and the rule is the nesting of
    the tags: a closing tag has to be that of the innermost open tag,
    and no tag may be left open. *)

(** The name of a tag: what comes before the first space. *)
Fixpoint tag_name (body : text) : text :=
  match body with
  | [] => []
  | c :: body' => if Ascii.eqb c " " then [] else c :: tag_name body'
  end.

(** The open tags are kept on [stack], innermost first; [tag] holds what
    has been read of a tag since its [<]. *)
Fixpoint scan (stack : list text) (tag : option text) (s : text) : bool :=
  match s with
  | [] =>
      match tag, stack with
      | None, [] => true
      | _, _ => false
      end
  | c :: s' =>
      match tag with
      | None =>
          if Ascii.eqb c "<" then scan stack (Some []) s'
          else scan stack None s'
      | Some body =>
          if Ascii.eqb c ">" then
            match body with
            | c0 :: name =>
                if Ascii.eqb c0 "/" then
                  match stack with
                  | top :: stack' =>
                      if text_eqb top name then scan stack' None s'
                      else false
                  | [] => false
                  end
                else scan (tag_name body :: stack) None s'
            | [] => false
            end
          else scan stack (Some (body ++ [c])) s'
      end
  end.

Definition nested (t : text) : bool := scan [] None t.

(** The test of the constructor, as far as the nesting goes. *)
Definition accepts (t : text) (sty : MarkdownToPDF.style) : bool := nested t.

End ReportLab.

(** * The parser with the errors of the constructor *)

Module Checked.
Import Re MarkdownToPDF.

Section Constructor.

(** [accepts text style] tells whether [Paragraph(text, style)] returns
    a paragraph; where it does not, the constructor raises
    [ValueError]. *)
Variable accepts : text -> style -> bool.

(** The call [Paragraph(text, style)]; [None] is the [ValueError]. *)
Definition new_paragraph (t : text) (sty : style) : option paragraph :=
  if accepts t sty then Some (Paragraph t sty) else None.

(** One iteration of the [while] loop, on the line [lines[i]].  Nothing
    in [parse_markdown] catches the [ValueError] of a constructor: the
    iteration, and with it the call, ends there. *)
Definition step (st : state) (line : text) : option state :=
  if Str.startswith (Str.strip line) fence then
    if negb (in_code_block st) then
      Some {| flowables := flowables st;
              in_code_block := true; code_block_lines := [];
              in_list := in_list st; list_items := list_items st |}
    else
      Some {| flowables := flowables st ++
                [Preformatted (Str.join_lines (code_block_lines st)) Code;
                 Spacer 1 20];
              in_code_block := false; code_block_lines := [];
              in_list := in_list st; list_items := list_items st |}
  else if in_code_block st then
    Some {| flowables := flowables st;
            in_code_block := in_code_block st;
            code_block_lines := code_block_lines st ++ [line];
            in_list := in_list st; list_items := list_items st |}
  else if Str.startswith_any (Str.strip line) list_markers then
    let items := if negb (in_list st) then [] else list_items st in
    let item_text := sub re_list_marker (fun _ => []) (Str.strip line) in
    let item_text := _format_inline item_text in
    match new_paragraph item_text CustomBody with
    | Some p =>
        Some {| flowables := flowables st;
                in_code_block := in_code_block st;
                code_block_lines := code_block_lines st;
                in_list := true;
                list_items := items ++ [p] |}
    | None => None
    end
  else if in_list st && text_eqb (Str.strip line) [] then
    Some (close_list
            (if truthy (list_items st) then
               emit [ListFlowable (list_items st) bullet (Some 8226%N);
                     Spacer 1 10] st
             else st))
  else if Str.startswith line (str "# ") then
    let text := _format_inline (Str.strip (skipn 2 line)) in
    match new_paragraph text Heading1 with
    | Some p => Some (emit [Para p; Spacer 1 15] (flush_list st))
    | None => None
    end
  else if Str.startswith line (str "## ") then
    let text := _format_inline (Str.strip (skipn 3 line)) in
    match new_paragraph text Heading2 with
    | Some p => Some (emit [PageBreak; Para p; Spacer 1 12] (flush_list st))
    | None => None
    end
  else if Str.startswith line (str "### ") then
    let text := _format_inline (Str.strip (skipn 4 line)) in
    match new_paragraph text Heading3 with
    | Some p => Some (emit [Para p; Spacer 1 10] (flush_list st))
    | None => None
    end
  else if existsb (text_eqb (Str.strip line)) rules then
    Some (emit [Spacer 1 20] (flush_list st))
  else if truthy (Str.strip line) then
    let text := _format_inline (Str.strip line) in
    match new_paragraph text CustomBody with
    | Some p => Some (emit [Para p; Spacer 1 5] (flush_list st))
    | None => None
    end
  else
    if in_list st && truthy (list_items st) then
      Some (close_list
              (emit [ListFlowable (list_items st) bullet None; Spacer 1 10]
                 st))
    else Some st.

(** The loop: it stops at the first iteration that raises. *)
Fixpoint run (st : state) (lines : list text) : option state :=
  match lines with
  | [] => Some st
  | line :: lines' =>
      match step st line with
      | Some st' => run st' lines'
      | None => None
      end
  end.

(** The loop from the initial state, then the statement after it and
    the [return]. *)
Definition parse_lines (lines : list text) : option (list flowable) :=
  option_map finish (run initial lines).

Definition parse_markdown (md_content : text) : option (list flowable) :=
  parse_lines (Str.split_lines md_content).

End Constructor.

End Checked.

(** * Notions used to state the properties *)

Module Props.
Import Re.

(** The characters with which a match of the pattern can begin. *)
Fixpoint starts (p : pattern) (c : ascii) : bool :=
  match p with
  | [] => true
  | Lit d :: _ => Ascii.eqb d c
  | Cls f :: _ => f c
  | ClsPlus f :: _ => f c
  | Group :: _ => dot c
  | WordB :: p' => starts p' c
  | Bos :: p' => starts p' c
  end.

(** Atoms that take at least one character. *)
Definition consuming (a : atom) : bool :=
  match a with
  | Lit _ | Cls _ | ClsPlus _ | Group => true
  | WordB | Bos => false
  end.

Definition rest_of (r : list text * option ascii * text) : text := snd r.

(** A line that opens or closes a fenced block. *)
Definition is_fence (line : text) : bool :=
  Str.startswith (Str.strip line) MarkdownToPDF.fence.


(** The marker characters of the inline rules: backtick, [*], [_], [[]
    and []]. *)
Definition is_marker (c : ascii) : bool :=
  Ascii.eqb c "`" || Ascii.eqb c "*" || Ascii.eqb c "_"
  || Ascii.eqb c "[" || Ascii.eqb c "]".

Definition marker_free (t : text) : Prop :=
  Forall (fun c => is_marker c = false) t.

(** The characters that [escape] replaces. *)
Definition is_special (c : ascii) : bool :=
  Ascii.eqb c "&" || Ascii.eqb c "<" || Ascii.eqb c ">".

(** A character that no stage of [_format_inline] replaces or can begin
    a match with. *)
Definition inert (c : ascii) : bool :=
  negb (is_special c || Ascii.eqb c "`" || Ascii.eqb c "*"
        || Ascii.eqb c "_" || Ascii.eqb c "[").

(** A line on which one of the tests for a fence, a list item, a heading
    or a rule holds; the tests are those of [step], on the trimmed or on
    the raw line as there. *)
Definition structural (line : text) : bool :=
  Str.startswith (Str.strip line) MarkdownToPDF.fence
  || Str.startswith_any (Str.strip line) MarkdownToPDF.list_markers
  || Str.startswith line (str "# ")
  || Str.startswith line (str "## ")
  || Str.startswith line (str "### ")
  || existsb (text_eqb (Str.strip line)) MarkdownToPDF.rules.

(** The patterns of the stages of [_format_inline]. *)
Definition stage_patterns : list Re.pattern :=
  [MarkdownToPDF.re_code; MarkdownToPDF.re_bold_star;
   MarkdownToPDF.re_bold_under; MarkdownToPDF.re_italic_star;
   MarkdownToPDF.re_italic_under; MarkdownToPDF.re_link].

(** The characters [escape] leaves alone. *)
Definition is_plain (c : ascii) : bool := negb (is_special c).

(** The entities written by [escape] and the tags written by the
    templates and by the restoring loop. *)
Definition entities : list text := [str "&amp;"; str "&lt;"; str "&gt;"].
Definition tags : list text :=
  [str "<b>"; str "</b>"; str "<i>"; str "</i>";
   MarkdownToPDF.link_open; MarkdownToPDF.link_close;
   MarkdownToPDF.code_open; MarkdownToPDF.code_close].

(** A text made of characters allowed by [plain] and of whole tokens. *)
Inductive tokenized (plain : ascii -> bool) (toks : list text)
  : text -> Prop :=
| tokenized_nil : tokenized plain toks []
| tokenized_char c s :
    plain c = true -> tokenized plain toks s -> tokenized plain toks (c :: s)
| tokenized_token t s :
    In t toks -> tokenized plain toks s -> tokenized plain toks (t ++ s).

(** No [&], [<] or [>] outside an entity or a generated tag. *)
Definition markup_safe : text -> Prop :=
  tokenized is_plain (entities ++ tags).

(** The marker characters of Markdown: those of the inline rules and the
    parentheses of a link. *)
Definition is_markdown_char (c : ascii) : bool :=
  is_marker c || Ascii.eqb c "(" || Ascii.eqb c ")".

Definition marker_clean (t : text) : Prop :=
  Forall (fun c => is_markdown_char c = false) t.

(** The characters the patterns use as delimiters. *)
Definition is_sep (c : ascii) : bool := is_markdown_char c.

(** A pattern after whose match the rest of the text is again at a token
    boundary: every group begins after a delimiter (or where the boundary
    is [known]) and is closed by one, and the last literal is one. *)
Fixpoint guarded (known : bool) (p : Re.pattern) : bool :=
  match p with
  | [] => known
  | Lit c :: p' => guarded (is_sep c) p'
  | Group :: p' =>
      known
      && match p' with Lit c :: _ => is_sep c | _ => false end
      && guarded false p'
  | WordB :: p' => guarded known p'
  | Cls _ :: _ | ClsPlus _ :: _ | Bos :: _ => false
  end.

(** What [replace] does to one character when [old] is the character
    [a]. *)
Definition subst_char (a : ascii) (new : text) (c : ascii) : text :=
  if Ascii.eqb a c then new else [c].

(** The entity of a character: what escaping makes of it. *)
Definition entity (c : ascii) : text :=
  if Ascii.eqb "&" c then str "&amp;"
  else if Ascii.eqb "<" c then str "&lt;"
  else if Ascii.eqb ">" c then str "&gt;"
  else [c].

(** The state after the literals of [old], for the matcher. *)
Definition last_of (old : text) (prev : option ascii) : option ascii :=
  fold_left (fun _ c => Some c) old prev.

(** A run of [k] hash characters. *)
Definition hashes (k : nat) : text := repeat "#"%char k.

(** An ordinary character of a text: not a marker of Markdown, not a
    character that [escape] replaces, not a newline. *)
Definition ordinary (c : ascii) : bool :=
  negb (is_markdown_char c) && negb (is_special c) && Re.dot c.

(** The items of the lists among some flowables, in order. *)
Definition items_of (fs : list MarkdownToPDF.flowable)
  : list MarkdownToPDF.paragraph :=
  flat_map (fun f => match f with
                     | MarkdownToPDF.ListFlowable items _ _ => items
                     | _ => []
                     end) fs.

(** The test of [step] for a list item, and the item it makes of the
    line. *)
Definition is_list_line (line : text) : bool :=
  Str.startswith_any (Str.strip line) MarkdownToPDF.list_markers.

Definition list_item (line : text) : MarkdownToPDF.paragraph :=
  MarkdownToPDF.Paragraph
    (MarkdownToPDF._format_inline
       (Re.sub MarkdownToPDF.re_list_marker (fun _ => []) (Str.strip line)))
    MarkdownToPDF.CustomBody.

(** The code blocks among some flowables. *)
Definition is_code (f : MarkdownToPDF.flowable) : bool :=
  match f with MarkdownToPDF.Preformatted _ _ => true | _ => false end.

Definition code_blocks (fs : list MarkdownToPDF.flowable) : nat :=
  List.length (filter is_code fs).

(** The number of fence lines. *)
Definition fences (lines : list text) : nat :=
  List.length (filter is_fence lines).

(** What holds of the local variables at every iteration: the list
    accumulator is non-empty exactly in list mode, and the code
    accumulator is empty outside code mode. *)
Definition consistent (st : MarkdownToPDF.state) : Prop :=
  (MarkdownToPDF.in_list st = true <-> MarkdownToPDF.list_items st <> [])
  /\ (MarkdownToPDF.in_code_block st = false ->
      MarkdownToPDF.code_block_lines st = []).

(** No two adjacent occurrences of [m]; [after_m] tells that the
    character before the text is [m]. *)
Fixpoint no_pair (m : ascii) (after_m : bool) (s : text) : bool :=
  match s with
  | [] => true
  | c :: s' => negb (after_m && Ascii.eqb m c) && no_pair m (Ascii.eqb m c) s'
  end.

(** Every underscore comes right after a word character other than an
    underscore; [prev] is the character before the text. *)
Definition in_word (prev : option ascii) : bool :=
  match prev with
  | Some d => isword d && negb (Ascii.eqb "_" d)
  | None => false
  end.

Fixpoint underscores_in_words (prev : option ascii) (s : text) : bool :=
  match s with
  | [] => true
  | c :: s' =>
      (negb (Ascii.eqb "_" c) || in_word prev)
      && underscores_in_words (Some c) s'
  end.
(** The characters that open a code span, a star span or a link. *)
Definition is_opening (c : ascii) : bool :=
  Ascii.eqb c "`" || Ascii.eqb c "*" || Ascii.eqb c "[".

(** The paragraphs among some flowables, those of the lists included,
    in order. *)
Definition paragraphs_of (fs : list MarkdownToPDF.flowable)
  : list MarkdownToPDF.paragraph :=
  flat_map (fun f => match f with
                     | MarkdownToPDF.Para p => [p]
                     | MarkdownToPDF.ListFlowable items _ _ => items
                     | _ => []
                     end) fs.

(** The paragraphs constructed so far: those appended and those of the
    pending list. *)
Definition all_paragraphs (st : MarkdownToPDF.state)
  : list MarkdownToPDF.paragraph :=
  paragraphs_of (MarkdownToPDF.flowables st) ++ MarkdownToPDF.list_items st.

(** The constructor returns on the text and the style of the
    paragraph. *)
Definition acceptable (accepts : text -> MarkdownToPDF.style -> bool)
  (p : MarkdownToPDF.paragraph) : bool :=
  accepts (MarkdownToPDF.para_text p) (MarkdownToPDF.para_style p).

(** The three tests of [step] for a heading, on the raw line. *)
Definition is_heading_line (line : text) : bool :=
  Str.startswith line (str "# ")
  || Str.startswith line (str "## ")
  || Str.startswith line (str "### ").

(** The pending list is empty outside list mode. *)
Definition list_kept (st : MarkdownToPDF.state) : Prop :=
  MarkdownToPDF.in_list st = false -> MarkdownToPDF.list_items st = [].


End Props.

(** * Facts about the string methods *)

Module StrFacts.
Import Str.

Lemma strip_prefix_app (p s rest : text) :
  strip_prefix p s = Some rest -> s = p ++ rest.
Proof.
  revert s; induction p as [|a p IH]; intros [|c s]; simpl; try congruence.
  destruct (Ascii.eqb_spec a c); [subst|discriminate].
  intros H; rewrite (IH _ H); reflexivity.
Qed.

Lemma strip_prefix_head (a c : ascii) (p s : text) :
  a <> c -> strip_prefix (a :: p) (c :: s) = None.
Proof.
  intros H; simpl. destruct (Ascii.eqb_spec a c); congruence.
Qed.

Lemma startswith_head (a c : ascii) (p s : text) :
  a <> c -> startswith (c :: s) (a :: p) = false.
Proof.
  intros H; unfold startswith; rewrite strip_prefix_head; auto.
Qed.


Lemma rstrip_cons (c : ascii) (s : text) :
  isspace c = false -> rstrip (c :: s) = c :: rstrip s.
Proof.
  intros H; simpl. destruct (rstrip s); [rewrite H|]; reflexivity.
Qed.

Lemma lstrip_incl (s : text) (c : ascii) : In c (lstrip s) -> In c s.
Proof.
  induction s as [|d s IH]; simpl; [tauto|].
  destruct (isspace d); simpl; tauto.
Qed.

Lemma rstrip_incl (s : text) (c : ascii) : In c (rstrip s) -> In c s.
Proof.
  induction s as [|d s IH]; simpl; [tauto|].
  destruct (rstrip s) as [|e r].
  - destruct (isspace d); simpl; tauto.
  - simpl; intros [H|H]; [left; exact H | right; apply IH; exact H].
Qed.

Lemma strip_incl (s : text) (c : ascii) : In c (strip s) -> In c s.
Proof. intros H; apply lstrip_incl, rstrip_incl, H. Qed.

(** [replace] keeps a property that the input and the new text have. *)
Lemma replace_from_Forall (P : ascii -> Prop) (old new : text) :
  Forall P new ->
  forall n s, Forall P s -> Forall P (replace_from old new n s).
Proof.
  intros Hnew; induction n as [|n IH]; intros s Hs; simpl; [exact Hs|].
  destruct (strip_prefix old s) as [rest|] eqn:E.
  - apply strip_prefix_app in E; subst s.
    apply Forall_app in Hs; destruct Hs as [_ Hr].
    apply Forall_app; split; [exact Hnew | apply IH, Hr].
  - destruct s as [|c s]; [constructor|].
    inversion Hs; subst; constructor; auto.
Qed.

(** A prefix without the first character of [old] is kept. *)
Lemma replace_from_prefix (a : ascii) (old new w : text) :
  ~ In a w ->
  forall n s, exists r, replace_from (a :: old) new n (w ++ s) = w ++ r.
Proof.
  induction w as [|c w IH]; intros Hw n s; [eexists; reflexivity|].
  destruct n as [|n]; [eexists; reflexivity|].
  cbn [app replace_from].
  rewrite strip_prefix_head by (intros ->; apply Hw; left; reflexivity).
  destruct (IH (fun H => Hw (or_intror H)) n s) as [r Hr].
  exists r; rewrite Hr; reflexivity.
Qed.

(** Replacing a one-character [old] maps every character on its own. *)
Lemma replace_from_single (a : ascii) (new : text) :
  forall n s, List.length s <= n ->
    replace_from [a] new n s =
    flat_map (fun c => if Ascii.eqb a c then new else [c]) s.
Proof.
  induction n as [|n IH]; intros [|c s] Hn; simpl in *;
    try reflexivity; try lia.
  destruct (Ascii.eqb a c); rewrite IH by lia; reflexivity.
Qed.

Lemma replace_single (a : ascii) (new s : text) :
  replace [a] new s =
  flat_map (fun c => if Ascii.eqb a c then new else [c]) s.
Proof. apply replace_from_single; reflexivity. Qed.

(** The fuel of [replace] is never used up. *)
Lemma replace_from_fuel (a : ascii) (old new : text) :
  forall n m s, List.length s <= n -> List.length s <= m ->
    replace_from (a :: old) new n s = replace_from (a :: old) new m s.
Proof.
  induction n as [|n IH]; intros [|m] s Hn Hm;
    try (destruct s; simpl in *; [reflexivity | lia]).
  cbn [replace_from].
  destruct (strip_prefix (a :: old) s) as [rest|] eqn:E.
  - apply strip_prefix_app in E; subst s.
    rewrite length_app in *; simpl in *.
    f_equal; apply IH; lia.
  - destruct s as [|c s]; [reflexivity|].
    simpl in *; f_equal; apply IH; lia.
Qed.

End StrFacts.

(** * Facts about the matcher and [re.sub] *)

Module ReFacts.
Import Re Props.

Lemma match_here_starts (p : pattern) :
  forall prev c s, starts p c = false -> match_here p prev (c :: s) = None.
Proof.
  induction p as [|a p IH]; intros prev c s H; [discriminate|].
  destruct a; cbn [match_here starts greedy_plus lazy_group] in *.
  - rewrite H; reflexivity.
  - rewrite H; reflexivity.
  - rewrite H; reflexivity.
  - rewrite H; reflexivity.
  - rewrite (IH prev c s H); destruct (word_boundary prev (c :: s)); reflexivity.
  - destruct prev; [reflexivity | apply IH, H].
Qed.

Lemma match_here_nil (p : pattern) :
  forall prev, existsb consuming p = true -> match_here p prev [] = None.
Proof.
  induction p as [|a p IH]; intros prev H; [discriminate|].
  destruct a; cbn [match_here greedy_plus lazy_group existsb consuming orb] in *;
    try reflexivity.
  - rewrite (IH prev H); destruct (word_boundary prev []); reflexivity.
  - destruct prev; [reflexivity | apply IH, H].
Qed.

Lemma greedy_plus_length f (k : ascii -> text -> result) :
  (forall d s r, k d s = Some r -> List.length (rest_of r) <= List.length s) ->
  forall s r, greedy_plus f k s = Some r ->
    List.length (rest_of r) < List.length s.
Proof.
  intros Hk; induction s as [|d s IH]; intros r; simpl; [discriminate|].
  destruct (f d); [|discriminate].
  destruct (greedy_plus f k s) as [r'|].
  - intros [= <-]. specialize (IH _ eq_refl). lia.
  - intros H; apply Hk in H; lia.
Qed.

Lemma lazy_group_length (k : ascii -> text -> result) :
  (forall d s r, k d s = Some r -> List.length (rest_of r) <= List.length s) ->
  forall s r, lazy_group k s = Some r ->
    List.length (rest_of r) < List.length s.
Proof.
  intros Hk; induction s as [|d s IH]; intros r; simpl; [discriminate|].
  destruct (dot d); [|discriminate].
  destruct (k d s) as [[[gs last] rest]|] eqn:E.
  - intros [= <-]. apply Hk in E; simpl in *; lia.
  - destruct (lazy_group k s) as [[[[|g gs] last] rest]|]; try discriminate.
    intros [= <-]. specialize (IH _ eq_refl); simpl in *; lia.
Qed.

(** A match leaves a suffix, and a shorter one when the pattern has an
    atom that takes a character. *)
Lemma match_here_length (p : pattern) :
  forall prev s r, match_here p prev s = Some r ->
    List.length (rest_of r) <= List.length s /\
    (existsb consuming p = true -> List.length (rest_of r) < List.length s).
Proof.
  induction p as [|a p IH]; intros prev s r.
  - simpl; intros [= <-]; simpl; split; [lia | discriminate].
  - destruct a; cbn [match_here existsb consuming orb].
    + destruct s as [|d s]; [discriminate|].
      destruct (Ascii.eqb c d); [|discriminate].
      intros H; apply IH in H; simpl; lia.
    + destruct s as [|d s]; [discriminate|].
      destruct (f d); [|discriminate].
      intros H; apply IH in H; simpl; lia.
    + intros H; apply greedy_plus_length in H; [lia|].
      intros d s' r' H'; apply IH in H'; tauto.
    + intros H; apply lazy_group_length in H; [lia|].
      intros d s' r' H'; apply IH in H'; tauto.
    + destruct (word_boundary prev s); [apply IH | discriminate].
    + destruct prev; [discriminate | apply IH].
Qed.

Section SubFacts.
Variable St : Type.
Variable p : pattern.
Variable repl : St -> list text -> St * text.

(** Where no character can begin a match, [re.sub] changes nothing. *)
Lemma sub_from_id :
  forall n prev st s,
    Forall (fun c => starts p c = false) s ->
    sub_from p repl n prev st s = (st, s).
Proof.
  induction n as [|n IH]; intros prev st s Hs; [reflexivity|].
  destruct Hs as [|c s Hc Hs]; [reflexivity|].
  cbn [sub_from]. rewrite (match_here_starts p prev c s Hc).
  rewrite (IH _ _ _ Hs); reflexivity.
Qed.

(** A prefix in which no character can begin a match is copied, and
    the substitution goes on after it. *)
Lemma sub_from_prefix (w : text) :
  Forall (fun c => starts p c = false) w ->
  forall n prev st s,
  exists prev',
    sub_from p repl n prev st (w ++ s) =
      (fst (sub_from p repl (n - List.length w) prev' st s),
       w ++ snd (sub_from p repl (n - List.length w) prev' st s)).
Proof.
  induction 1 as [|c w Hc _ IH]; intros n prev st s.
  - exists prev. cbn [app List.length]. rewrite Nat.sub_0_r.
    destruct (sub_from p repl n prev st s); reflexivity.
  - destruct n as [|n].
    + exists prev; reflexivity.
    + destruct (IH n (Some c) st s) as (prev' & E).
      exists prev'.
      cbn [app sub_from List.length Nat.sub].
      rewrite (match_here_starts p prev c _ Hc).
      rewrite E; reflexivity.
Qed.

(** The fuel of [re.sub] is never used up when every match takes a
    character. *)
Lemma sub_from_fuel :
  existsb consuming p = true ->
  forall n m prev st s,
    List.length s <= n -> List.length s <= m ->
    sub_from p repl n prev st s = sub_from p repl m prev st s.
Proof.
  intros Hp; induction n as [|n IH]; intros m prev st s Hn Hm.
  - destruct s; [|simpl in Hn; lia]. destruct m; reflexivity.
  - destruct m as [|m]; [destruct s; [reflexivity | simpl in Hm; lia]|].
    destruct s as [|c s]; [reflexivity|].
    cbn [sub_from].
    destruct (match_here p prev (c :: s)) as [[[gs last] rest]|] eqn:E.
    + apply match_here_length in E; destruct E as [_ E].
      specialize (E Hp); simpl in *.
      destruct (repl st gs) as [st1 out].
      rewrite (IH m last st1 rest) by lia; reflexivity.
    + simpl in *. rewrite (IH m (Some c) st s) by lia; reflexivity.
Qed.
End SubFacts.

Lemma sub_with_fuel (St : Type) (p : pattern)
  (repl : St -> list text -> St * text) :
  existsb consuming p = true ->
  forall n st s, List.length s <= n ->
    sub_from p repl n None st s = sub_with p repl st s.
Proof.
  intros Hp n st s Hn; unfold sub_with.
  apply sub_from_fuel; [exact Hp | exact Hn | reflexivity].
Qed.

Lemma sub_id (p : pattern) (template : list text -> text) (s : text) :
  Forall (fun c => starts p c = false) s -> sub p template s = s.
Proof.
  intros H; unfold sub, sub_with; rewrite sub_from_id by exact H; reflexivity.
Qed.

Lemma sub_with_prefix (St : Type) (p : pattern) (repl : St -> list text -> St * text)
  (w : text) :
  Forall (fun c => starts p c = false) w ->
  forall st s, exists r, snd (sub_with p repl st (w ++ s)) = w ++ r.
Proof.
  intros H st s; unfold sub_with.
  destruct (sub_from_prefix St p repl w H (List.length (w ++ s)) None st s)
    as (prev' & E).
  rewrite E; eexists; reflexivity.
Qed.

Lemma sub_prefix (p : pattern) (template : list text -> text) (w : text) :
  Forall (fun c => starts p c = false) w ->
  forall s, exists r, sub p template (w ++ s) = w ++ r.
Proof. intros H s; apply sub_with_prefix, H. Qed.

End ReFacts.


(** * Texts made of plain characters and tokens *)

Module SafeFacts.
Import Re Props MarkdownToPDF.

Section Tokenized.
Variable plain : ascii -> bool.
Variable toks : list text.

Lemma tokenized_app (a b : text) :
  tokenized plain toks a -> tokenized plain toks b ->
  tokenized plain toks (a ++ b).
Proof.
  induction 1 as [|c s Hc _ IH|t s Ht _ IH]; intros Hb; cbn [app].
  - exact Hb.
  - apply tokenized_char; auto.
  - rewrite <- app_assoc; apply tokenized_token; auto.
Qed.

Lemma tokenized_plain (s : text) :
  Forall (fun c => plain c = true) s -> tokenized plain toks s.
Proof. induction 1; constructor; auto. Qed.

Lemma tokenized_one (t : text) : In t toks -> tokenized plain toks t.
Proof.
  intros H; rewrite <- (app_nil_r t); apply tokenized_token;
    [exact H | constructor].
Qed.

(** A character that is plain and occurs in no token cuts a tokenized
    text into two tokenized texts. *)
Lemma tokenized_split (m : ascii) :
  (forall t, In t toks -> ~ In m t) ->
  forall s, tokenized plain toks s ->
  forall a b, s = a ++ m :: b ->
    tokenized plain toks a /\ tokenized plain toks b.
Proof.
  intros Hm; induction 1 as [|c s Hc Hs IH|t s Ht Hs IH]; intros a b E.
  - destruct a; discriminate.
  - destruct a as [|c' a]; cbn [app] in E; injection E as -> ->.
    + split; [constructor | exact Hs].
    + destruct (IH a b eq_refl) as [Ha Hb].
      split; [apply tokenized_char; assumption | exact Hb].
  - apply app_eq_app in E; destruct E as [l [[E1 E2]|[E1 E2]]].
    + destruct l as [|m' l]; cbn [app] in E2.
      * subst s. rewrite app_nil_r in E1; subst a.
        destruct (IH [] b eq_refl) as [_ Hb].
        split; [apply tokenized_one, Ht | exact Hb].
      * injection E2 as <- ->. exfalso; apply (Hm t Ht).
        rewrite E1; apply in_or_app; right; left; reflexivity.
    + subst a. destruct (IH l b E2) as [Hl Hb].
      split; [apply tokenized_token; assumption | exact Hb].
Qed.

End Tokenized.

Lemma tokenized_mono (plain plain' : ascii -> bool) (toks toks' : list text) :
  (forall c, plain c = true -> plain' c = true) ->
  incl toks toks' ->
  forall s, tokenized plain toks s -> tokenized plain' toks' s.
Proof.
  intros Hp Ht; induction 1; constructor; auto.
Qed.

(** *** The escaping *)

Lemma flat_map_absent (a : ascii) (new t : text) :
  ~ In a t -> flat_map (subst_char a new) t = t.
Proof.
  induction t as [|c t IH]; intros H; [reflexivity|].
  cbn [flat_map]. unfold subst_char at 1.
  destruct (Ascii.eqb_spec a c) as [->|_].
  - exfalso; apply H; left; reflexivity.
  - rewrite IH; [reflexivity | intros Hin; apply H; right; exact Hin].
Qed.

(** Replacing a character by a token: the character is no longer plain,
    the token is a new token, the old tokens are untouched. *)
Lemma tokenized_subst (plain : ascii -> bool) (toks : list text)
  (a : ascii) (new : text) :
  (forall t, In t toks -> ~ In a t) ->
  forall s, tokenized plain toks s ->
    tokenized (fun c => plain c && negb (Ascii.eqb a c)) (new :: toks)
      (flat_map (subst_char a new) s).
Proof.
  intros Ha; induction 1 as [|c s Hc _ IH|t s Ht _ IH].
  - constructor.
  - cbn [flat_map]. unfold subst_char at 1.
    destruct (Ascii.eqb a c) eqn:E.
    + apply tokenized_token; [left; reflexivity | exact IH].
    + apply tokenized_char; [rewrite Hc, E; reflexivity | exact IH].
  - rewrite flat_map_app, flat_map_absent by (apply Ha, Ht).
    apply tokenized_token; [right; exact Ht | exact IH].
Qed.

Lemma escape_flat_map (t : text) :
  escape t =
  flat_map (subst_char ">" (str "&gt;"))
    (flat_map (subst_char "<" (str "&lt;"))
       (flat_map (subst_char "&" (str "&amp;")) t)).
Proof.
  unfold escape. change amp with ["&"%char]; change lt with ["<"%char];
    change gt with [">"%char].
  rewrite !StrFacts.replace_single. reflexivity.
Qed.

(** The three replacements in a row map every character to its entity:
    the entities written by the earlier ones hold no [<] and no [>]. *)
Lemma escape_pointwise (t : text) : escape t = flat_map entity t.
Proof.
  rewrite escape_flat_map. induction t as [|c t IH]; [reflexivity|].
  cbn [flat_map]. rewrite !flat_map_app, IH. f_equal.
  unfold entity, subst_char at 3.
  destruct (Ascii.eqb_spec "&" c) as [<-|Ha]; [reflexivity|].
  cbn [flat_map app]. unfold subst_char at 2.
  destruct (Ascii.eqb_spec "<" c) as [<-|Hl]; [reflexivity|].
  cbn [flat_map app]. unfold subst_char.
  destruct (Ascii.eqb_spec ">" c) as [<-|Hg]; reflexivity.
Qed.

Ltac not_in_tokens :=
  let t := fresh "t" in let H := fresh "H" in let Hin := fresh "Hin" in
  intros t H Hin; cbn [In app entities tags] in H;
  repeat (destruct H as [<-|H];
          [vm_compute in Hin; repeat (destruct Hin as [Hin|Hin];
                                      [discriminate Hin|]);
           exact Hin|]);
  exact H.

(** The result of [escape] has no [&], [<] or [>] outside an entity. *)
Lemma escape_safe (t : text) : markup_safe (escape t).
Proof.
  rewrite escape_flat_map.
  assert (H0 : tokenized (fun _ => true) [] t)
    by (apply tokenized_plain, Forall_forall; reflexivity).
  apply (tokenized_subst _ _ "&" (str "&amp;")) in H0;
    [|intros ? []].
  apply (tokenized_subst _ _ "<" (str "&lt;")) in H0;
    [|not_in_tokens].
  apply (tokenized_subst _ _ ">" (str "&gt;")) in H0;
    [|not_in_tokens].
  revert H0; apply tokenized_mono.
  - intros c Hc; unfold is_plain, is_special.
    rewrite (Ascii.eqb_sym c "&"), (Ascii.eqb_sym c "<"),
      (Ascii.eqb_sym c ">").
    destruct (Ascii.eqb "&" c), (Ascii.eqb "<" c), (Ascii.eqb ">" c);
      try discriminate Hc; reflexivity.
  - intros x Hx; cbn [In] in Hx; unfold entities; cbn [In app].
    tauto.
Qed.

(** *** Delimiters and matches *)

Lemma sep_not_in_token (m : ascii) :
  is_sep m = true -> forall t, In t (entities ++ tags) -> ~ In m t.
Proof.
  unfold is_sep, is_markdown_char, is_marker; intros H.
  repeat (apply orb_true_iff in H; destruct H as [H|H]);
    apply Ascii.eqb_eq in H; subst m; not_in_tokens.
Qed.

Lemma safe_split (m : ascii) (a b : text) :
  is_sep m = true -> markup_safe (a ++ m :: b) ->
  markup_safe a /\ markup_safe b.
Proof.
  intros Hm H.
  exact (tokenized_split _ _ m (sep_not_in_token m Hm) _ H a b eq_refl).
Qed.

(** A lazy group followed by [k]: the group is a non-empty prefix, and
    [k] matched right after it. *)
Lemma lazy_group_inv (k : ascii -> text -> result) :
  forall s gs last rest,
    lazy_group k s = Some (gs, last, rest) ->
    exists g d gs' s',
      gs = (g ++ [d]) :: gs' /\ s = g ++ d :: s' /\
      k d s' = Some (gs', last, rest).
Proof.
  induction s as [|d s IH]; intros gs last rest; cbn [lazy_group];
    [discriminate|].
  destruct (dot d); [|discriminate].
  destruct (k d s) as [[[gs1 last1] rest1]|] eqn:E.
  - intros [= <- <- <-]. exists [], d, gs1, s. auto.
  - destruct (lazy_group k s) as [[[[|g0 gs0] last0] rest0]|] eqn:E';
      try discriminate.
    intros [= <- <- <-].
    destruct (IH _ _ _ eq_refl) as (g & d' & gs' & s' & E1 & E2 & E3).
    injection E1 as -> ->.
    exists (d :: g), d', gs', s'. subst s. auto.
Qed.

(** The groups of a match of a guarded pattern in a safe text are safe,
    and so is the text after the match. *)
Lemma match_guarded (p : pattern) :
  forall known prev pre s gs last rest,
    guarded known p = true ->
    markup_safe (pre ++ s) ->
    (known = true -> markup_safe s) ->
    match_here p prev s = Some (gs, last, rest) ->
    Forall markup_safe gs /\ markup_safe rest.
Proof.
  induction p as [|a p IH]; intros known prev pre s gs last rest Hg Hall Hs.
  - cbn [match_here guarded] in *. intros [= <- <- <-].
    split; [constructor | apply Hs, Hg].
  - destruct a; cbn [match_here guarded] in *; try discriminate.
    + destruct s as [|d s]; [discriminate|].
      destruct (Ascii.eqb_spec c d) as [<-|]; [|discriminate].
      apply (IH (is_sep c) (Some c) (pre ++ [c]) s); [exact Hg | |].
      * rewrite <- app_assoc; exact Hall.
      * intros Hc; apply (safe_split c pre s Hc Hall).
    + apply andb_true_iff in Hg; destruct Hg as [Hg Hg'].
      apply andb_true_iff in Hg; destruct Hg as [Hk Hn].
      intros H; apply lazy_group_inv in H.
      destruct H as (g & d & gs' & s' & -> & -> & H).
      destruct p as [|[c| | | | |] p']; try discriminate Hn.
      assert (H' := H). cbn [match_here] in H'.
      destruct s' as [|c' s']; [discriminate|].
      destruct (Ascii.eqb_spec c c') as [<-|]; [|discriminate]. clear H'.
      specialize (Hs Hk).
      replace (g ++ d :: c :: s') with ((g ++ [d]) ++ c :: s') in *
        by (rewrite <- app_assoc; reflexivity).
      destruct (safe_split c _ _ Hn Hs) as [Hgd _].
      destruct (IH false (Some d) (pre ++ g ++ [d]) (c :: s') gs' last rest
                  Hg') as [Hgs Hr]; auto.
      * rewrite <- app_assoc; exact Hall.
      * discriminate.
    + destruct (word_boundary prev s); [|discriminate].
      apply (IH known prev pre s); assumption.
Qed.

(** *** [re.sub] on a safe text *)

Lemma token_nonempty (t : text) : In t (entities ++ tags) -> t <> [].
Proof.
  intros H; cbn [In app entities tags] in H.
  repeat (destruct H as [<-|H]; [discriminate|]). contradiction.
Qed.

Section SubSafe.
Variable St : Type.
Variable p : pattern.
Variable repl : St -> list text -> St * text.
(** What is kept true of the state of the replacement. *)
Variable Inv : St -> Prop.

Hypothesis p_guarded : guarded true p = true.
Hypothesis p_tokens :
  forall t, In t (entities ++ tags) ->
    Forall (fun c => starts p c = false) t.
Hypothesis repl_safe :
  forall st gs, Inv st -> Forall markup_safe gs ->
    Inv (fst (repl st gs)) /\ markup_safe (snd (repl st gs)).

Lemma sub_from_safe :
  forall n prev st s, Inv st -> markup_safe s ->
    Inv (fst (sub_from p repl n prev st s)) /\
    markup_safe (snd (sub_from p repl n prev st s)).
Proof.
  induction n as [n IH] using lt_wf_ind; intros prev st s Hst Hs.
  destruct n as [|n]; [split; assumption|].
  inversion Hs as [|c s' Hc Hs' E|t s' Ht Hs' E]; subst.
  - split; [exact Hst | constructor].
  - cbn [sub_from].
    destruct (match_here p prev (c :: s')) as [[[gs last] rest]|] eqn:M.
    + destruct (match_guarded p true prev [] _ gs last rest p_guarded Hs
                  (fun _ => Hs) M) as [Hgs Hrest].
      destruct (repl_safe st gs Hst Hgs) as [Hst1 Hout].
      destruct (repl st gs) as [st1 out]; cbn [fst snd] in *.
      destruct (IH n (Nat.lt_succ_diag_r n) last st1 rest Hst1 Hrest)
        as [Hst2 Htl].
      destruct (sub_from p repl n last st1 rest) as [st2 tl];
        cbn [fst snd] in *.
      split; [exact Hst2 | apply tokenized_app; assumption].
    + destruct (IH n (Nat.lt_succ_diag_r n) (Some c) st s' Hst Hs')
        as [Hst2 Htl].
      destruct (sub_from p repl n (Some c) st s') as [st2 tl];
        cbn [fst snd] in *.
      split; [exact Hst2 | apply tokenized_char; assumption].
  - destruct (ReFacts.sub_from_prefix St p repl t (p_tokens t Ht)
                (S n) prev st s') as [prev' E].
    rewrite E; cbn [fst snd].
    assert (Hlt : S n - List.length t < S n).
    { pose proof (token_nonempty t Ht). destruct t; [contradiction|].
      cbn [List.length]. lia. }
    destruct (IH _ Hlt prev' st s' Hst Hs') as [Hst2 Htl].
    split; [exact Hst2 | apply tokenized_token; assumption].
Qed.

End SubSafe.

(** *** [replace] as a substitution of a literal pattern *)

Lemma match_here_lits (old : text) :
  forall prev s,
    match_here (map Lit old) prev s =
    match Str.strip_prefix old s with
    | Some rest => Some ([], last_of old prev, rest)
    | None => None
    end.
Proof.
  induction old as [|a old IH]; intros prev s; [reflexivity|].
  cbn [map match_here Str.strip_prefix].
  destruct s as [|c s]; [reflexivity|].
  destruct (Ascii.eqb_spec a c) as [<-|]; [|reflexivity].
  rewrite IH; reflexivity.
Qed.

Lemma replace_from_sub (a : ascii) (old new : text) :
  forall n prev s,
    Str.replace_from (a :: old) new n s =
    snd (sub_from (map Lit (a :: old)) (fun (st : unit) _ => (st, new))
           n prev tt s).
Proof.
  induction n as [|n IH]; intros prev s; [reflexivity|].
  cbn [Str.replace_from sub_from].
  destruct s as [|c s]; [reflexivity|].
  rewrite match_here_lits.
  destruct (Str.strip_prefix (a :: old) (c :: s)) as [rest|].
  - rewrite (IH (last_of (a :: old) prev) rest).
    destruct (sub_from _ _ n _ tt rest); reflexivity.
  - rewrite (IH (Some c) s).
    destruct (sub_from _ _ n _ tt s); reflexivity.
Qed.

Lemma guarded_lits (w : text) :
  forall known, guarded known (map Lit (w ++ ["_"%char])) = true.
Proof.
  induction w as [|c w IH]; intros known; cbn [app map guarded];
    [reflexivity | apply IH].
Qed.

End SafeFacts.

(** * Facts about the inline formatter *)

Module InlineFacts.
Import Props MarkdownToPDF.

(** C1, on the code: the two code spans are extracted to the placeholders
    0 and 1 with contents ["a"] and ["b"], but each placeholder is then
    matched by the bold rule for double underscores, so the restoring loop
    finds nothing to replace and no code-span tag is produced. *)
Theorem C1_placeholders_taken_as_bold :
  Re.sub_with re_code save_code [] (str "`a` and `b`") =
    ([str "a"; str "b"],
     str "__CODE_PLACEHOLDER_0__ and __CODE_PLACEHOLDER_1__") /\
  Re.sub re_bold_under bold
    (str "__CODE_PLACEHOLDER_0__ and __CODE_PLACEHOLDER_1__") =
    str "<b>CODE_PLACEHOLDER_0</b> and <b>CODE_PLACEHOLDER_1</b>" /\
  _format_inline (str "`a` and `b`") =
    str "<b>CODE_PLACEHOLDER_0</b> and <b>CODE_PLACEHOLDER_1</b>".
Proof. repeat split; reflexivity. Qed.

(** C8. The bold rules run before the italic rules: ["**bold**"] becomes
    one bold span (the italic rule applied first would have taken
    ["**bold*"]), and ["*x* and *y*"] becomes two italic spans. *)
Theorem C8_bold_before_italic :
  _format_inline (str "**bold**") = str "<b>bold</b>" /\
  _format_inline (str "*x* and *y*") = str "<i>x</i> and <i>y</i>" /\
  (forall t, emphasis t =
     Re.sub re_link link
       (Re.sub re_italic_under italic
          (Re.sub re_italic_star italic
             (Re.sub re_bold_under bold
                (Re.sub re_bold_star bold t))))) /\
  Re.sub re_italic_star italic (str "**bold**") = str "<i>*bold</i>*".
Proof. repeat split; reflexivity. Qed.

(** Every pattern of the source takes at least one character, so the
    fuel of [Re.sub_with] is never used up on them
    ([ReFacts.sub_from_fuel]). *)
Lemma source_patterns_consume :
  Forall (fun p => existsb consuming p = true)
    (re_list_marker :: stage_patterns).
Proof. repeat constructor. Qed.

(** *** Text without markers, and inert prefixes *)

Ltac char_neq H :=
  cbv [starts re_code re_bold_star re_bold_under re_italic_star
       re_italic_under re_link];
  repeat match goal with
    | |- context [Ascii.eqb ?a ?c] =>
        destruct (Ascii.eqb_spec a c) as [<-|_];
        [vm_compute in H; discriminate H|]
    end;
  reflexivity.

Lemma marker_not_start (c : ascii) (p : Re.pattern) :
  is_marker c = false -> In p stage_patterns -> starts p c = false.
Proof.
  intros H Hp; unfold stage_patterns in Hp; cbn [In] in Hp.
  repeat (destruct Hp as [<-|Hp]; [char_neq H|]). contradiction.
Qed.

Lemma inert_not_start (c : ascii) (p : Re.pattern) :
  inert c = true -> In p stage_patterns -> starts p c = false.
Proof.
  intros H Hp; unfold stage_patterns in Hp; cbn [In] in Hp.
  repeat (destruct Hp as [<-|Hp]; [char_neq H|]). contradiction.
Qed.

Lemma inert_neq (c a : ascii) :
  inert c = true -> In a (str "&<>_") -> a <> c.
Proof.
  intros H Ha <-; cbn [In str list_ascii_of_string] in Ha.
  repeat (destruct Ha as [<-|Ha]; [vm_compute in H; discriminate H|]).
  contradiction.
Qed.

Lemma inert_absent (a : ascii) (w : text) :
  Forall (fun c => inert c = true) w -> In a (str "&<>_") -> ~ In a w.
Proof.
  intros Hw Ha Hin. rewrite Forall_forall in Hw.
  exact (inert_neq a a (Hw a Hin) Ha eq_refl).
Qed.

(** [escape] leaves text without markers without markers. *)
Lemma escape_marker_free (t : text) : marker_free t -> marker_free (escape t).
Proof.
  intros H; unfold escape, Str.replace.
  repeat apply StrFacts.replace_from_Forall; try exact H;
    repeat constructor.
Qed.

(** The part of C9 on [_format_inline]: on text without markers it is
    [escape] and nothing else. *)
Lemma format_inline_marker_free (t : text) :
  marker_free t -> _format_inline t = escape t.
Proof.
  intros H; apply escape_marker_free in H.
  assert (Hp : forall p, In p stage_patterns ->
             Forall (fun c => starts p c = false) (escape t)).
  { intros p Hp; eapply Forall_impl; [|exact H].
    intros c Hc; apply marker_not_start; assumption. }
  unfold _format_inline, Re.sub_with.
  rewrite ReFacts.sub_from_id by (apply Hp; cbn; tauto).
  unfold emphasis.
  rewrite (ReFacts.sub_id re_bold_star bold (escape t)),
    (ReFacts.sub_id re_bold_under bold (escape t)),
    (ReFacts.sub_id re_italic_star italic (escape t)),
    (ReFacts.sub_id re_italic_under italic (escape t)),
    (ReFacts.sub_id re_link link (escape t))
    by (apply Hp; cbn; tauto).
  reflexivity.
Qed.

Lemma placeholder_cons (i : nat) :
  placeholder i = "_"%char :: str "_CODE_PLACEHOLDER_" ++ Str.of_nat i ++ str "__".
Proof. reflexivity. Qed.

Lemma escape_prefix (w s : text) :
  Forall (fun c => inert c = true) w ->
  exists r, escape (w ++ s) = w ++ r.
Proof.
  intros H; unfold escape, Str.replace.
  change amp with ["&"%char]; change lt with ["<"%char];
    change gt with [">"%char].
  destruct (StrFacts.replace_from_prefix "&" [] (str "&amp;") w
              (inert_absent "&" w H ltac:(cbn; tauto))
              (List.length (w ++ s)) s) as [r1 ->].
  destruct (StrFacts.replace_from_prefix "<" [] (str "&lt;") w
              (inert_absent "<" w H ltac:(cbn; tauto))
              (List.length (w ++ r1)) r1) as [r2 ->].
  apply StrFacts.replace_from_prefix, inert_absent; [exact H | cbn; tauto].
Qed.

Lemma emphasis_prefix (w s : text) :
  Forall (fun c => inert c = true) w ->
  exists r, emphasis (w ++ s) = w ++ r.
Proof.
  intros H.
  assert (Hp : forall p, In p stage_patterns ->
             Forall (fun c => starts p c = false) w).
  { intros p Hp; eapply Forall_impl; [|exact H].
    intros c Hc; apply inert_not_start; assumption. }
  unfold emphasis.
  destruct (ReFacts.sub_prefix re_bold_star bold w
              (Hp re_bold_star ltac:(cbn; tauto)) s) as [r1 ->].
  destruct (ReFacts.sub_prefix re_bold_under bold w
              (Hp re_bold_under ltac:(cbn; tauto)) r1) as [r2 ->].
  destruct (ReFacts.sub_prefix re_italic_star italic w
              (Hp re_italic_star ltac:(cbn; tauto)) r2) as [r3 ->].
  destruct (ReFacts.sub_prefix re_italic_under italic w
              (Hp re_italic_under ltac:(cbn; tauto)) r3) as [r4 ->].
  apply ReFacts.sub_prefix, Hp; cbn; tauto.
Qed.

Lemma restore_prefix (parts : list text) (w : text) :
  Forall (fun c => inert c = true) w ->
  forall i t, exists r, restore i parts (w ++ t) = w ++ r.
Proof.
  intros H; induction parts as [|code parts IH]; intros i t; cbn [restore].
  - eexists; reflexivity.
  - unfold Str.replace. rewrite placeholder_cons.
    destruct (StrFacts.replace_from_prefix "_"
                (str "_CODE_PLACEHOLDER_" ++ Str.of_nat i ++ str "__")
                (code_open ++ code ++ code_close) w
                (inert_absent "_" w H ltac:(cbn; tauto))
                (List.length (w ++ t)) t) as [r ->].
    apply IH.
Qed.

(** A prefix of inert characters goes through [_format_inline]
    unchanged. *)
Lemma format_inline_prefix (w s : text) :
  Forall (fun c => inert c = true) w ->
  exists r, _format_inline (w ++ s) = w ++ r.
Proof.
  intros H; unfold _format_inline.
  destruct (escape_prefix w s H) as [r1 ->].
  destruct (ReFacts.sub_with_prefix _ re_code save_code w
              ltac:(eapply Forall_impl; [|exact H];
                    intros c Hc; apply inert_not_start;
                    [exact Hc | cbn; tauto]) [] r1) as [r2 E].
  destruct (Re.sub_with re_code save_code [] (w ++ r1)) as [parts t2].
  cbn [snd] in E; subst t2.
  destruct (emphasis_prefix w r2 H) as [r3 ->].
  apply restore_prefix, H.
Qed.

(** *** No special character outside an entity or a tag *)

Ltac tokens_inert :=
  let t := fresh "t" in let H := fresh "H" in
  intros t H; cbn [In app entities tags] in H;
  repeat (destruct H as [<-|H];
          [repeat (constructor; [reflexivity|]); constructor|]);
  contradiction.

Lemma group_safe (n : nat) (gs : list text) :
  Forall markup_safe gs -> markup_safe (Re.group n gs).
Proof.
  intros H; unfold Re.group.
  destruct (nth_in_or_default (n - 1) gs []) as [Hin| ->];
    [rewrite Forall_forall in H; apply H, Hin | constructor].
Qed.

Lemma tag_safe (t : text) : In t tags -> markup_safe t.
Proof.
  intros H; apply SafeFacts.tokenized_one, in_or_app; right; exact H.
Qed.

Lemma wrap_safe (open close : text) (gs : list text) :
  In open tags -> In close tags -> Forall markup_safe gs ->
  markup_safe (open ++ Re.group 1 gs ++ close).
Proof.
  intros Ho Hc H.
  apply SafeFacts.tokenized_app; [apply tag_safe, Ho|].
  apply SafeFacts.tokenized_app; [apply group_safe, H | apply tag_safe, Hc].
Qed.

(** A stage with a template keeps a safe text safe. *)
Lemma sub_safe (p : Re.pattern) (template : list text -> text) :
  guarded true p = true ->
  (forall t, In t (entities ++ tags) ->
     Forall (fun c => starts p c = false) t) ->
  (forall gs, Forall markup_safe gs -> markup_safe (template gs)) ->
  forall s, markup_safe s -> markup_safe (Re.sub p template s).
Proof.
  intros Hg Ht Hr s Hs. unfold Re.sub, Re.sub_with.
  apply (SafeFacts.sub_from_safe unit p _ (fun _ => True)); auto.
  intros st gs _ Hgs; split; [exact I | apply Hr, Hgs].
Qed.

Lemma emphasis_safe (s : text) : markup_safe s -> markup_safe (emphasis s).
Proof.
  intros H; unfold emphasis.
  apply sub_safe;
    [reflexivity | tokens_inert
    | intros gs Hgs; apply wrap_safe; cbn; tauto |].
  apply sub_safe;
    [reflexivity | tokens_inert
    | intros gs Hgs; apply wrap_safe; cbn; tauto |].
  apply sub_safe;
    [reflexivity | tokens_inert
    | intros gs Hgs; apply wrap_safe; cbn; tauto |].
  apply sub_safe;
    [reflexivity | tokens_inert
    | intros gs Hgs; apply wrap_safe; cbn; tauto |].
  apply sub_safe;
    [reflexivity | tokens_inert
    | intros gs Hgs; apply wrap_safe; cbn; tauto |].
  exact H.
Qed.

Lemma of_nat_plain (i : nat) :
  Forall (fun c => is_plain c = true) (Str.of_nat i).
Proof.
  unfold Str.of_nat. generalize (Nat.to_uint i); intros d.
  induction d; cbn [NilEmpty.string_of_uint str list_ascii_of_string];
    constructor; solve [reflexivity | assumption].
Qed.

Lemma placeholder_safe (i : nat) : markup_safe (placeholder i).
Proof.
  apply SafeFacts.tokenized_plain. unfold placeholder.
  apply Forall_app; split; [repeat constructor|].
  apply Forall_app; split; [apply of_nat_plain | repeat constructor].
Qed.

(** The closure [save_code] stores safe contents and returns a safe
    placeholder. *)
Lemma save_code_safe (code_parts gs : list text) :
  Forall markup_safe code_parts -> Forall markup_safe gs ->
  Forall markup_safe (fst (save_code code_parts gs)) /\
  markup_safe (snd (save_code code_parts gs)).
Proof.
  intros Hp Hgs; unfold save_code; cbn [fst snd]; split.
  - apply Forall_app; split; [exact Hp|].
    constructor; [apply group_safe, Hgs | constructor].
  - apply placeholder_safe.
Qed.

Lemma replace_placeholder_safe (i : nat) (new t : text) :
  markup_safe new -> markup_safe t ->
  markup_safe (Str.replace (placeholder i) new t).
Proof.
  intros Hnew Ht. unfold Str.replace. rewrite placeholder_cons.
  rewrite (SafeFacts.replace_from_sub _ _ new _ None).
  apply (SafeFacts.sub_from_safe unit _ _ (fun _ => True)); auto.
  - change ("_"%char :: str "_CODE_PLACEHOLDER_" ++ Str.of_nat i ++ str "__")
      with (("_"%char :: str "_CODE_PLACEHOLDER_") ++ Str.of_nat i
            ++ (["_"%char] ++ ["_"%char])).
    rewrite !app_assoc. apply SafeFacts.guarded_lits.
  - cbn [map starts]. tokens_inert.
Qed.

Lemma restore_safe (code_parts : list text) :
  Forall markup_safe code_parts ->
  forall i t, markup_safe t -> markup_safe (restore i code_parts t).
Proof.
  induction 1 as [|code parts Hc _ IH]; intros i t Ht; cbn [restore];
    [exact Ht|].
  apply IH, replace_placeholder_safe; [|exact Ht].
  apply SafeFacts.tokenized_app; [apply tag_safe; cbn; tauto|].
  apply SafeFacts.tokenized_app; [exact Hc | apply tag_safe; cbn; tauto].
Qed.

(** The part of C5 that holds of the code: the formatted text is made
    of characters other than [&], [<] and [>], of the three entities and
    of generated tags. *)
Lemma format_inline_safe (t : text) : markup_safe (_format_inline t).
Proof.
  unfold _format_inline, Re.sub_with.
  destruct (SafeFacts.sub_from_safe (list text) re_code save_code
              (Forall markup_safe) eq_refl ltac:(tokens_inert)
              save_code_safe (List.length (escape t)) None [] (escape t)
              (Forall_nil _) (SafeFacts.escape_safe t)) as [Hparts Ht].
  destruct (Re.sub_from re_code save_code _ None [] (escape t))
    as [code_parts t2]; cbn [fst snd] in *.
  apply restore_safe, emphasis_safe; assumption.
Qed.

(** C5, as the code has it.  Whatever the input, the formatted text has
    no [&], [<] or [>] outside an entity or a generated tag; but marker
    characters that take part in no match stay in it as they are, as the
    star of ["2*3"] does. *)
Theorem C5_markup_safe :
  (forall t, markup_safe (_format_inline t)) /\
  _format_inline (str "2*3") = str "2*3".
Proof. split; [exact format_inline_safe | reflexivity]. Qed.

(** C5 as the specification words it fails: a marker character survives
    in the formatted text of ["2*3"]. *)
Lemma C5_marker_survives :
  ~ (markup_safe (_format_inline (str "2*3")) /\
     marker_clean (_format_inline (str "2*3"))).
Proof.
  intros [_ H]. change (_format_inline (str "2*3")) with (str "2*3") in H.
  apply Forall_inv_tail, Forall_inv in H. discriminate H.
Qed.

End InlineFacts.

(** * Facts about the parser *)

Module ParseFacts.
Import Props MarkdownToPDF.

(** In code mode, lines that are not fences are only appended to
    [code_block_lines]. *)
Lemma run_code_lines (body : list text) :
  forall st,
    in_code_block st = true ->
    Forall (fun l => is_fence l = false) body ->
    run st body =
      {| flowables := flowables st;
         in_code_block := true;
         code_block_lines := code_block_lines st ++ body;
         in_list := in_list st; list_items := list_items st |}.
Proof.
  induction body as [|line body IH]; intros st Hin Hb.
  - simpl. rewrite app_nil_r. destruct st; simpl in *; subst; reflexivity.
  - inversion Hb as [|? ? Hl Hb']; subst. unfold run in *; cbn [fold_left].
    assert (E : step st line =
      {| flowables := flowables st;
         in_code_block := true;
         code_block_lines := code_block_lines st ++ [line];
         in_list := in_list st; list_items := list_items st |}).
    { unfold step. unfold is_fence in Hl. rewrite Hl, Hin. reflexivity. }
    rewrite E, IH by (auto; reflexivity). cbn.
    rewrite <- app_assoc. reflexivity.
Qed.

(** C6. A line whose trimmed content starts with three backticks opens
    code mode; every following line that is not such a fence, whatever it
    looks like (blank, list item, heading, rule), is kept verbatim in the
    accumulator, without inline formatting; the closing fence appends
    exactly one [Preformatted] holding the accumulated lines joined by
    newlines (with its trailing spacer), and leaves code mode with an
    empty accumulator.  The rest of the state is untouched. *)
Theorem C6_fenced_block (st : state) (open close : text) (body : list text) :
  in_code_block st = false ->
  is_fence open = true ->
  is_fence close = true ->
  Forall (fun l => is_fence l = false) body ->
  run st (open :: body ++ [close]) =
    {| flowables := flowables st ++
         [Preformatted (Str.join_lines body) Code; Spacer 1 20];
       in_code_block := false; code_block_lines := [];
       in_list := in_list st; list_items := list_items st |}.
Proof.
  intros Hin Ho Hc Hb. unfold run. cbn [fold_left].
  rewrite fold_left_app. cbn [fold_left].
  assert (E : step st open =
    {| flowables := flowables st; in_code_block := true;
       code_block_lines := [];
       in_list := in_list st; list_items := list_items st |}).
  { unfold step. unfold is_fence in Ho. rewrite Ho, Hin. reflexivity. }
  rewrite E. fold (run {| flowables := flowables st; in_code_block := true;
       code_block_lines := [];
       in_list := in_list st; list_items := list_items st |} body).
  rewrite run_code_lines by (auto; reflexivity).
  unfold step. unfold is_fence in Hc. rewrite Hc. reflexivity.
Qed.

(** The three lines of the claim: one code block holding ["code"]. *)
Lemma C6_fenced_block_witness :
  is_fence (str "```") = true /\
  Forall (fun l => is_fence l = false) [str "code"] /\
  parse_lines [str "```"; str "code"; str "```"] =
    [Preformatted (str "code") Code; Spacer 1 20].
Proof.
  split; [reflexivity|]. split; [repeat constructor|].
  unfold parse_lines.
  change [str "```"; str "code"; str "```"]
    with (str "```" :: [str "code"] ++ [str "```"]).
  rewrite (C6_fenced_block initial (str "```") (str "```") [str "code"]);
    [reflexivity | reflexivity | reflexivity | reflexivity
    | repeat constructor].
Defined.

(** An opening fence that is never closed: the lines after it are kept
    in [code_block_lines] only, and the statement after the loop looks at
    the pending list alone, so nothing is appended for them. *)
Lemma unterminated_fence_drops_lines (st : state) (open : text)
  (body : list text) :
  in_code_block st = false ->
  is_fence open = true ->
  Forall (fun l => is_fence l = false) body ->
  finish (run st (open :: body)) = finish st.
Proof.
  intros Hin Ho Hb. unfold run. cbn [fold_left].
  assert (E : step st open =
    {| flowables := flowables st; in_code_block := true;
       code_block_lines := [];
       in_list := in_list st; list_items := list_items st |}).
  { unfold step. unfold is_fence in Ho. rewrite Ho, Hin. reflexivity. }
  rewrite E. fold (run {| flowables := flowables st; in_code_block := true;
       code_block_lines := [];
       in_list := in_list st; list_items := list_items st |} body).
  rewrite run_code_lines by (auto; reflexivity). reflexivity.
Qed.

(** C3, on the code: the two lines of an unterminated fence produce no
    flowable at all; the accumulated line ["code"] is lost. *)
Theorem C3_unterminated_fence_lost :
  parse_markdown (str "```" ++ Str.newline :: str "code") = [].
Proof. reflexivity. Qed.

(** C2, on the code: the lines [---] and [***] pass the list test, which
    comes first and asks for no whitespace after the marker, and become
    list items; of the three rule lines only [___] reaches the rule
    branch and appends its spacer. *)
Theorem C2_rule_lines :
  parse_markdown (str "---") =
    [ListFlowable [Paragraph (str "---") CustomBody] bullet None] /\
  parse_markdown (str "***") =
    [ListFlowable [Paragraph (str "<i>*</i>") CustomBody] bullet None] /\
  parse_markdown (str "___") = [Spacer 1 20].
Proof. repeat split; reflexivity. Qed.

(** C4, on the code: a trimmed line that starts with a marker character
    not followed by whitespace is taken as a list item all the same, with
    the marker left in the item; it is not a paragraph. *)
Theorem C4_marker_without_space :
  parse_lines [str "-abc"] =
    [ListFlowable [Paragraph (str "-abc") CustomBody] bullet None] /\
  parse_lines [str "**Note** text"] =
    [ListFlowable [Paragraph (str "<b>Note</b> text") CustomBody] bullet None].
Proof. split; reflexivity. Qed.

(** The part of C4 the code does: a marker followed by whitespace is
    stripped with the whitespace, and the formatted remainder is the item. *)
Lemma list_item_marker_stripped :
  parse_lines [str "  *   some *text* "] =
    [ListFlowable [Paragraph (str "some <i>text</i>") CustomBody] bullet None].
Proof. reflexivity. Qed.

(** C7, on the code: the rule line [---] after a list item does not close
    the list; it is appended to it as a second item, and no rule follows. *)
Theorem C7_rule_line_joins_list :
  parse_lines [str "- a"; str "---"] =
    [ListFlowable [Paragraph (str "a") CustomBody;
                   Paragraph (str "---") CustomBody] bullet None].
Proof. reflexivity. Qed.

(** The example of C7: two items, then a blank line. *)
Lemma list_closed_by_blank_line :
  parse_lines [str "- a"; str "- b"; []] =
    [ListFlowable [Paragraph (str "a") CustomBody;
                   Paragraph (str "b") CustomBody] bullet (Some 8226%N);
     Spacer 1 10].
Proof. reflexivity. Qed.

Lemma text_eqb_neq (a b : text) : a <> b -> text_eqb a b = false.
Proof.
  intros H; unfold text_eqb; destruct (list_eq_dec ascii_dec a b);
    [contradiction | reflexivity].
Qed.

(** Outside code mode, a line that is not blank and on which no
    structural test holds closes a pending list and becomes a paragraph
    of its formatted trimmed content. *)
Lemma step_paragraph (st : state) (line : text) :
  in_code_block st = false ->
  structural line = false ->
  Str.strip line <> [] ->
  step st line =
    emit [Para (Paragraph (_format_inline (Str.strip line)) CustomBody);
          Spacer 1 5] (flush_list st).
Proof.
  intros Hin Hs Hne. unfold structural in Hs.
  repeat (apply orb_false_iff in Hs; destruct Hs as [Hs ?]).
  unfold step. rewrite Hs, Hin.
  repeat match goal with H : _ = false |- _ => rewrite H; clear H end.
  rewrite text_eqb_neq by exact Hne. rewrite andb_false_r.
  destruct (Str.strip line); [contradiction | reflexivity].
Qed.

Lemma parse_lines_paragraph (line : text) :
  structural line = false ->
  Str.strip line <> [] ->
  parse_lines [line] =
    [Para (Paragraph (_format_inline (Str.strip line)) CustomBody);
     Spacer 1 5].
Proof.
  intros Hs Hne. unfold parse_lines, run. cbn [fold_left].
  rewrite step_paragraph by (auto; reflexivity). reflexivity.
Qed.

Lemma rstrip_hashes (k : nat) (s : text) :
  Str.rstrip (hashes k ++ s) = hashes k ++ Str.rstrip s.
Proof.
  induction k as [|k IH]; [reflexivity|].
  unfold hashes in *; cbn [repeat app].
  rewrite StrFacts.rstrip_cons by reflexivity. rewrite IH; reflexivity.
Qed.

(** *** Where a pending list is closed *)

Lemma flush_list_open (st : state) :
  in_list st = true -> list_items st <> [] ->
  flush_list st =
    close_list (emit [ListFlowable (list_items st) bullet None] st).
Proof.
  intros Hl Hi; unfold flush_list; rewrite Hl.
  destruct (list_items st); [contradiction | reflexivity].
Qed.

(** A blank line, outside code mode, closes the pending list: one
    [ListFlowable] with all the items (and a spacer), nothing else. *)
Lemma list_closed_at_blank (st : state) (line : text) :
  in_code_block st = false ->
  in_list st = true -> list_items st <> [] ->
  Str.strip line = [] ->
  step st line =
    close_list
      (emit [ListFlowable (list_items st) bullet (Some 8226%N);
             Spacer 1 10] st).
Proof.
  intros Hc Hl Hi Hb; unfold step; rewrite Hb, Hc, Hl.
  destruct (list_items st); [contradiction | reflexivity].
Qed.

(** A heading line, outside code mode, first closes the pending list
    and then appends the heading. *)
Lemma list_closed_before_heading (st : state) (rest : text) :
  in_code_block st = false ->
  (let line := str "# " ++ rest in
   step st line =
     emit [Para (Paragraph (_format_inline (Str.strip rest)) Heading1);
           Spacer 1 15] (flush_list st)) /\
  (let line := str "## " ++ rest in
   step st line =
     emit [PageBreak;
           Para (Paragraph (_format_inline (Str.strip rest)) Heading2);
           Spacer 1 12] (flush_list st)) /\
  (let line := str "### " ++ rest in
   step st line =
     emit [Para (Paragraph (_format_inline (Str.strip rest)) Heading3);
           Spacer 1 10] (flush_list st)).
Proof.
  intros Hc.
  assert (Hs : forall k, Str.strip (hashes (S k) ++ " "%char :: rest) =
                 "#"%char :: hashes k ++ Str.rstrip (" "%char :: rest)).
  { intros k; unfold Str.strip, hashes; cbn [repeat app Str.lstrip].
    change (Str.isspace "#") with false; cbv iota.
    rewrite StrFacts.rstrip_cons by reflexivity.
    f_equal; apply rstrip_hashes. }
  repeat split; intros line; unfold step.
  - change line with (hashes 1 ++ " "%char :: rest); rewrite Hs, Hc.
    rewrite text_eqb_neq, andb_false_r by discriminate. reflexivity.
  - change line with (hashes 2 ++ " "%char :: rest); rewrite Hs, Hc.
    rewrite text_eqb_neq, andb_false_r by discriminate. reflexivity.
  - change line with (hashes 3 ++ " "%char :: rest); rewrite Hs, Hc.
    rewrite text_eqb_neq, andb_false_r by discriminate. reflexivity.
Qed.

(** The rule line [___], outside code mode, first closes the pending
    list and then appends the spacer of the rule. *)
Lemma list_closed_before_underscore_rule (st : state) :
  in_code_block st = false ->
  step st (str "___") = emit [Spacer 1 20] (flush_list st).
Proof.
  intros Hc; unfold step.
  change (Str.strip (str "___")) with (str "___"). rewrite Hc.
  change (Str.startswith (str "___") fence) with false.
  change (Str.startswith_any (str "___") list_markers) with false.
  rewrite text_eqb_neq, andb_false_r by discriminate. reflexivity.
Qed.

(** At the end of the input a pending list is appended. *)
Lemma list_closed_at_end (st : state) :
  in_list st = true -> list_items st <> [] ->
  finish st = flowables st ++ [ListFlowable (list_items st) bullet None].
Proof.
  intros Hl Hi; unfold finish; rewrite Hl.
  destruct (list_items st); [contradiction | reflexivity].
Qed.

(** *** Plain lines and indented headings *)

Lemma strip_marker_free (t : text) : marker_free t -> marker_free (Str.strip t).
Proof.
  unfold marker_free; rewrite !Forall_forall.
  intros H c Hc; apply H, StrFacts.strip_incl, Hc.
Qed.


End ParseFacts.

(** * More on the inline formatter *)

Module InlineMore.
Import Re Props MarkdownToPDF.

(** *** The escaping, character by character *)

Lemma escape_app (a b : text) : escape (a ++ b) = escape a ++ escape b.
Proof. rewrite !SafeFacts.escape_pointwise; apply flat_map_app. Qed.

Lemma entity_head (c : ascii) :
  exists r, entity c = (if is_special c then "&"%char else c) :: r.
Proof.
  unfold entity, is_special.
  rewrite (Ascii.eqb_sym c "&"), (Ascii.eqb_sym c "<"), (Ascii.eqb_sym c ">").
  destruct (Ascii.eqb_spec "&" c) as [<-|Ha]; [eexists; reflexivity|].
  destruct (Ascii.eqb_spec "<" c) as [<-|Hl]; [eexists; reflexivity|].
  destruct (Ascii.eqb_spec ">" c) as [<-|Hg]; eexists; reflexivity.
Qed.

(** Two characters whose entities begin two equal texts are equal, and
    so are the texts after the entities. *)
Lemma entity_inj (c d : ascii) (ra rb : text) :
  entity c ++ ra = entity d ++ rb -> c = d /\ ra = rb.
Proof.
  unfold entity.
  destruct (Ascii.eqb_spec "&" c) as [<-|Hc1];
    [|destruct (Ascii.eqb_spec "<" c) as [<-|Hc2];
      [|destruct (Ascii.eqb_spec ">" c) as [<-|Hc3]]];
  (destruct (Ascii.eqb_spec "&" d) as [<-|Hd1];
    [|destruct (Ascii.eqb_spec "<" d) as [<-|Hd2];
      [|destruct (Ascii.eqb_spec ">" d) as [<-|Hd3]]]);
  cbn [app str list_ascii_of_string]; intros E;
  try (injection E as E; subst; try congruence; split; reflexivity);
  try (injection E; intros; subst; congruence).
Qed.

(** X15. [escape] confuses no two texts: texts that differ have
    escapings that differ. *)
Theorem escape_injective (a b : text) : a <> b -> escape a <> escape b.
Proof.
  intros H E; apply H; clear H. revert E.
  rewrite !SafeFacts.escape_pointwise.
  revert b; induction a as [|c a IH]; intros [|d b]; cbn [flat_map].
  - reflexivity.
  - destruct (entity_head d) as [r ->]; discriminate.
  - destruct (entity_head c) as [r ->]; discriminate.
  - intros E; apply entity_inj in E; destruct E as [-> E].
    f_equal; apply IH, E.
Qed.

(** The text ["&lt;"] and the text ["<"] are escaped differently. *)
Lemma escape_injective_witness :
  escape (str "&lt;") = str "&amp;lt;" /\
  escape (str "<") = str "&lt;" /\
  escape (str "&lt;") <> escape (str "<").
Proof.
  split; [reflexivity|]. split; [reflexivity|].
  apply (escape_injective (str "&lt;") (str "<")). discriminate.
Defined.

(** *** Matches that succeed, and matches that cannot *)

Lemma lazy_group_cons (k : ascii -> text -> result) (d : ascii) (s : text) :
  lazy_group k (d :: s) =
  if dot d then
    match k d s with
    | Some (gs, last, rest) => Some ([d] :: gs, last, rest)
    | None =>
        match lazy_group k s with
        | Some (g :: gs, last, rest) => Some ((d :: g) :: gs, last, rest)
        | _ => None
        end
    end
  else None.
Proof. reflexivity. Qed.

(** A lazy group closed by the literal [m]: a non-empty run without
    newline and without [m] before an [m] after which the rest of the
    pattern matches is the group. *)
Lemma lazy_group_take (m : ascii) (p : pattern) (w s' : text)
  (gs : list text) (last : option ascii) (rest : text) :
  w <> [] ->
  Forall (fun c => dot c = true) w ->
  ~ In m w ->
  match_here p (Some m) s' = Some (gs, last, rest) ->
  lazy_group (fun d s => match_here (Lit m :: p) (Some d) s) (w ++ m :: s')
  = Some (w :: gs, last, rest).
Proof.
  intros Hne Hdot Hm Hp.
  induction w as [|c w IH]; [contradiction|].
  inversion Hdot as [|? ? Hc Hw]; subst.
  cbn [app]. rewrite lazy_group_cons, Hc.
  destruct w as [|c' w].
  - cbn [app match_here]. rewrite Ascii.eqb_refl, Hp. reflexivity.
  - replace (match_here (Lit m :: p) (Some c) ((c' :: w) ++ m :: s'))
      with (@None (list text * option ascii * text)).
    + rewrite IH; [reflexivity | discriminate | exact Hw |].
      intros H; apply Hm; right; exact H.
    + cbn [app match_here].
      destruct (Ascii.eqb_spec m c') as [->|_]; [|reflexivity].
      exfalso; apply Hm; right; left; reflexivity.
Qed.

(** A lazy group closed by the literal [m] finds nothing in a text
    without [m]. *)
Lemma lazy_group_absent (m : ascii) (p : pattern) (s : text) :
  ~ In m s ->
  lazy_group (fun d s' => match_here (Lit m :: p) (Some d) s') s = None.
Proof.
  induction s as [|d s IH]; intros H; [reflexivity|].
  rewrite lazy_group_cons. destruct (dot d); [|reflexivity].
  rewrite IH by (intros Hin; apply H; right; exact Hin).
  destruct s as [|c s]; [reflexivity|].
  cbn [match_here].
  destruct (Ascii.eqb_spec m c) as [->|_]; [|reflexivity].
  exfalso; apply H; right; left; reflexivity.
Qed.

Section SubSteps.
Variable St : Type.
Variable p : pattern.
Variable repl : St -> list text -> St * text.

Lemma sub_from_nil (n : nat) (prev : option ascii) (st : St) :
  sub_from p repl n prev st [] = (st, []).
Proof. destruct n; reflexivity. Qed.

(** No match at the head: the character is copied. *)
Lemma sub_from_skip (n : nat) (prev : option ascii) (st : St)
  (c : ascii) (s : text) :
  match_here p prev (c :: s) = None ->
  sub_from p repl (S n) prev st (c :: s) =
    (fst (sub_from p repl n (Some c) st s),
     c :: snd (sub_from p repl n (Some c) st s)).
Proof.
  intros H; cbn [sub_from]; rewrite H.
  destruct (sub_from p repl n (Some c) st s); reflexivity.
Qed.

(** A match of the whole text: the replacement is the result. *)
Lemma sub_with_whole (st : St) (c : ascii) (s : text) (gs : list text)
  (last : option ascii) :
  match_here p None (c :: s) = Some (gs, last, []) ->
  sub_with p repl st (c :: s) =
    (fst (repl st gs), snd (repl st gs) ++ []).
Proof.
  intros H; unfold sub_with; cbn [List.length sub_from]; rewrite H.
  destruct (repl st gs) as [st1 out]. rewrite sub_from_nil. reflexivity.
Qed.

(** No match anywhere in [a ++ m :: b] when none can begin in [a] or in
    [b] and none is found at [m]. *)
Lemma sub_from_lone (a b : text) (m : ascii) :
  Forall (fun c => starts p c = false) a ->
  Forall (fun c => starts p c = false) b ->
  (forall prev, match_here p prev (m :: b) = None) ->
  forall n prev st,
    sub_from p repl n prev st (a ++ m :: b) = (st, a ++ m :: b).
Proof.
  intros Ha Hb Hm n prev st.
  destruct (ReFacts.sub_from_prefix St p repl a Ha n prev st (m :: b))
    as [prev' ->].
  destruct (n - List.length a) as [|k]; [reflexivity|].
  rewrite sub_from_skip by apply Hm.
  rewrite ReFacts.sub_from_id by exact Hb. reflexivity.
Qed.

End SubSteps.

(** *** Ordinary characters *)

Ltac ordinary_char H :=
  repeat match goal with
    | |- context [Ascii.eqb ?a ?c] =>
        destruct (Ascii.eqb_spec a c) as [<-|_];
        [vm_compute in H; discriminate H|]
    end.

Lemma ordinary_inert (c : ascii) : ordinary c = true -> inert c = true.
Proof.
  intros H; unfold inert, is_special.
  rewrite (Ascii.eqb_sym c "&"), (Ascii.eqb_sym c "<"),
    (Ascii.eqb_sym c ">"), (Ascii.eqb_sym c "`"), (Ascii.eqb_sym c "*"),
    (Ascii.eqb_sym c "_"), (Ascii.eqb_sym c "[").
  ordinary_char H. reflexivity.
Qed.

Lemma ordinary_dot (c : ascii) : ordinary c = true -> dot c = true.
Proof.
  unfold ordinary; intros H.
  apply andb_true_iff in H; destruct H as [_ H]; exact H.
Qed.

Lemma ordinary_neq (c a : ascii) :
  ordinary c = true -> In a (str "`*_[]()&<>") -> a <> c.
Proof.
  intros H Ha <-; cbn [In str list_ascii_of_string] in Ha.
  repeat (destruct Ha as [<-|Ha]; [vm_compute in H; discriminate H|]).
  contradiction.
Qed.

Lemma ordinary_absent (a : ascii) (w : text) :
  Forall (fun c => ordinary c = true) w -> In a (str "`*_[]()&<>") ->
  ~ In a w.
Proof.
  intros Hw Ha Hin. rewrite Forall_forall in Hw.
  exact (ordinary_neq a a (Hw a Hin) Ha eq_refl).
Qed.

Lemma ordinary_dots (w : text) :
  Forall (fun c => ordinary c = true) w -> Forall (fun c => dot c = true) w.
Proof. apply Forall_impl, ordinary_dot. Qed.

Lemma ordinary_not_start (w : text) (p : pattern) :
  Forall (fun c => ordinary c = true) w -> In p stage_patterns ->
  Forall (fun c => starts p c = false) w.
Proof.
  intros H Hp; eapply Forall_impl; [|exact H].
  intros c Hc; apply InlineFacts.inert_not_start;
    [apply ordinary_inert, Hc | exact Hp].
Qed.

(** [escape] changes nothing in a text without [&], [<] and [>]. *)
Lemma escape_plain (t : text) :
  Forall (fun c => is_plain c = true) t -> escape t = t.
Proof.
  rewrite SafeFacts.escape_pointwise.
  induction 1 as [|c t Hc _ IH]; [reflexivity|].
  cbn [flat_map]; rewrite IH. unfold entity.
  unfold is_plain, is_special in Hc.
  rewrite (Ascii.eqb_sym c "&"), (Ascii.eqb_sym c "<"),
    (Ascii.eqb_sym c ">") in Hc.
  destruct (Ascii.eqb "&" c), (Ascii.eqb "<" c), (Ascii.eqb ">" c);
    try discriminate Hc; reflexivity.
Qed.

Lemma ordinary_plain (w : text) :
  Forall (fun c => ordinary c = true) w ->
  Forall (fun c => is_plain c = true) w.
Proof.
  apply Forall_impl; intros c H; unfold ordinary in H.
  apply andb_true_iff in H; destruct H as [H _].
  apply andb_true_iff in H; destruct H as [_ H]. exact H.
Qed.

Lemma forallb_not_start (p : pattern) (a : text) :
  forallb (fun c => negb (starts p c)) a = true ->
  Forall (fun c => starts p c = false) a.
Proof.
  rewrite forallb_forall, Forall_forall; intros H c Hc.
  apply negb_true_iff, H, Hc.
Qed.

(** A stage finds nothing in an ordinary text between two texts in
    which no match can begin. *)
Lemma wrapped_not_start (p : pattern) (a w b : text) :
  In p stage_patterns ->
  Forall (fun c => ordinary c = true) w ->
  forallb (fun c => negb (starts p c)) a = true ->
  forallb (fun c => negb (starts p c)) b = true ->
  Forall (fun c => starts p c = false) (a ++ w ++ b).
Proof.
  intros Hp Hw Ha Hb.
  apply Forall_app; split; [apply forallb_not_start, Ha|].
  apply Forall_app; split;
    [apply ordinary_not_start; assumption | apply forallb_not_start, Hb].
Qed.

Lemma sub_wrapped (p : pattern) (template : list text -> text)
  (a w b : text) :
  In p stage_patterns ->
  Forall (fun c => ordinary c = true) w ->
  forallb (fun c => negb (starts p c)) a = true ->
  forallb (fun c => negb (starts p c)) b = true ->
  sub p template (a ++ w ++ b) = a ++ w ++ b.
Proof. intros; apply ReFacts.sub_id, wrapped_not_start; assumption. Qed.

Lemma escape_wrapped (a w b : text) :
  Forall (fun c => ordinary c = true) w ->
  forallb is_plain a = true -> forallb is_plain b = true ->
  escape (a ++ w ++ b) = a ++ w ++ b.
Proof.
  intros Hw Ha Hb; apply escape_plain.
  rewrite forallb_forall in Ha, Hb.
  apply Forall_app; split; [apply Forall_forall, Ha|].
  apply Forall_app; split; [apply ordinary_plain, Hw | apply Forall_forall, Hb].
Qed.

(** The stage of the code spans finds nothing where there is no
    backtick. *)
Lemma code_stage_wrapped (a w b : text) :
  Forall (fun c => ordinary c = true) w ->
  forallb (fun c => negb (starts re_code c)) a = true ->
  forallb (fun c => negb (starts re_code c)) b = true ->
  sub_with re_code save_code [] (a ++ w ++ b) = ([], a ++ w ++ b).
Proof.
  intros Hw Ha Hb; unfold sub_with.
  apply ReFacts.sub_from_id, wrapped_not_start; try assumption.
  cbn; tauto.
Qed.

Lemma sub_whole (p : pattern) (template : list text -> text)
  (c : ascii) (s : text) (gs : list text) (last : option ascii) :
  match_here p None (c :: s) = Some (gs, last, []) ->
  sub p template (c :: s) = template gs.
Proof.
  intros H; unfold sub.
  rewrite (sub_with_whole unit p _ tt c s gs last H).
  cbn [fst snd]. apply app_nil_r.
Qed.

(** *** What the rules make of an ordinary text between their markers *)

Ltac stages_in := cbn; tauto.

(** X11. An ordinary text between [**] and [**], or between [__] and
    [__], becomes that text between [<b>] and [</b>]. *)
Theorem bold_of_ordinary_text (w : text) :
  w <> [] ->
  Forall (fun c => ordinary c = true) w ->
  _format_inline (str "**" ++ w ++ str "**") = str "<b>" ++ w ++ str "</b>" /\
  _format_inline (str "__" ++ w ++ str "__") = str "<b>" ++ w ++ str "</b>".
Proof.
  intros Hne Hw; split; unfold _format_inline.
  - rewrite escape_wrapped, code_stage_wrapped by (auto; reflexivity).
    cbn [restore]. unfold emphasis.
    change (str "**" ++ w ++ str "**")
      with ("*"%char :: "*"%char :: w ++ str "**").
    rewrite (sub_whole re_bold_star bold "*" ("*"%char :: w ++ str "**")
               [w] (Some "*"%char)).
    + change (bold [w]) with (str "<b>" ++ w ++ str "</b>").
      rewrite !sub_wrapped by (auto; try reflexivity; stages_in).
      reflexivity.
    + unfold re_bold_star. cbn [match_here str list_ascii_of_string app].
      rewrite !Ascii.eqb_refl.
      apply (lazy_group_take "*" [Lit "*"] w ["*"%char]);
        [exact Hne | apply ordinary_dots, Hw
        | apply ordinary_absent; [exact Hw | stages_in] | reflexivity].
  - rewrite escape_wrapped, code_stage_wrapped by (auto; reflexivity).
    cbn [restore]. unfold emphasis.
    rewrite (sub_wrapped re_bold_star) by (auto; try reflexivity; stages_in).
    change (str "__" ++ w ++ str "__")
      with ("_"%char :: "_"%char :: w ++ str "__").
    rewrite (sub_whole re_bold_under bold "_" ("_"%char :: w ++ str "__")
               [w] (Some "_"%char)).
    + change (bold [w]) with (str "<b>" ++ w ++ str "</b>").
      rewrite !sub_wrapped by (auto; try reflexivity; stages_in).
      reflexivity.
    + unfold re_bold_under. cbn [match_here str list_ascii_of_string app].
      rewrite !Ascii.eqb_refl.
      apply (lazy_group_take "_" [Lit "_"] w ["_"%char]);
        [exact Hne | apply ordinary_dots, Hw
        | apply ordinary_absent; [exact Hw | stages_in] | reflexivity].
Qed.

(** A pattern that begins with the same literal twice finds nothing in
    a text without two adjacent occurrences of it. *)
Lemma sub_from_no_pair (St : Type) (m : ascii) (p : pattern)
  (repl : St -> list text -> St * text) :
  forall s n prev st after_m,
    no_pair m after_m s = true ->
    sub_from (Lit m :: Lit m :: p) repl n prev st s = (st, s).
Proof.
  induction s as [|c s IH]; intros n prev st after_m H;
    [apply sub_from_nil|].
  destruct n as [|n]; [reflexivity|].
  cbn [no_pair] in H. apply andb_true_iff in H; destruct H as [_ H].
  rewrite sub_from_skip.
  - rewrite (IH n (Some c) st _ H). reflexivity.
  - cbn [match_here].
    destruct (Ascii.eqb m c) eqn:E; [|reflexivity].
    destruct s as [|d s]; [reflexivity|].
    cbn [no_pair] in H. cbn [andb] in H.
    destruct (Ascii.eqb m d); [discriminate H | reflexivity].
Qed.

Lemma no_pair_absent (m : ascii) (s : text) :
  ~ In m s -> forall after_m, no_pair m after_m s = true.
Proof.
  induction s as [|c s IH]; intros H after_m; [reflexivity|].
  cbn [no_pair].
  destruct (Ascii.eqb_spec m c) as [->|_];
    [exfalso; apply H; left; reflexivity|].
  rewrite andb_false_r. apply IH. intros Hin; apply H; right; exact Hin.
Qed.

Lemma no_pair_app (m : ascii) (a b : text) :
  ~ In m a -> forall after_m,
    no_pair m after_m (a ++ b) =
    no_pair m (match a with [] => after_m | _ => false end) b.
Proof.
  induction a as [|c a IH]; intros H after_m; [reflexivity|].
  cbn [app no_pair].
  destruct (Ascii.eqb_spec m c) as [->|_];
    [exfalso; apply H; left; reflexivity|].
  rewrite andb_false_r. cbn [negb andb].
  rewrite IH by (intros Hin; apply H; right; exact Hin).
  destruct a; reflexivity.
Qed.

(** X11 on the text ["very bold"]. *)
Lemma bold_of_ordinary_text_witness :
  _format_inline (str "**very bold**") = str "<b>very bold</b>" /\
  _format_inline (str "__very bold__") = str "<b>very bold</b>".
Proof.
  apply (bold_of_ordinary_text (str "very bold"));
    [discriminate | repeat constructor].
Defined.

(** X12. An ordinary text between [*] and [*], or between [_] and [_],
    becomes that text between [<i>] and [</i>]. *)
Theorem italic_of_ordinary_text (w : text) :
  w <> [] ->
  Forall (fun c => ordinary c = true) w ->
  _format_inline (str "*" ++ w ++ str "*") = str "<i>" ++ w ++ str "</i>" /\
  _format_inline (str "_" ++ w ++ str "_") = str "<i>" ++ w ++ str "</i>".
Proof.
  intros Hne Hw; split; unfold _format_inline.
  - rewrite escape_wrapped, code_stage_wrapped by (auto; reflexivity).
    cbn [restore]. unfold emphasis.
    assert (E : sub re_bold_star bold (str "*" ++ w ++ str "*") =
                str "*" ++ w ++ str "*").
    { unfold sub, sub_with, re_bold_star.
      rewrite (sub_from_no_pair unit "*" _ _ _ _ None tt false);
        [reflexivity|].
      cbn [str list_ascii_of_string app no_pair]. cbn [andb negb].
      rewrite no_pair_app by (apply ordinary_absent; [exact Hw | stages_in]).
      destruct w; [contradiction | reflexivity]. }
    rewrite E.
    rewrite (sub_wrapped re_bold_under) by (auto; try reflexivity; stages_in).
    change (str "*" ++ w ++ str "*") with ("*"%char :: w ++ str "*").
    rewrite (sub_whole re_italic_star italic "*" (w ++ str "*")
               [w] (Some "*"%char)).
    + change (italic [w]) with (str "<i>" ++ w ++ str "</i>").
      rewrite !sub_wrapped by (auto; try reflexivity; stages_in).
      reflexivity.
    + unfold re_italic_star. cbn [match_here str list_ascii_of_string app].
      rewrite !Ascii.eqb_refl.
      apply (lazy_group_take "*" [] w []);
        [exact Hne | apply ordinary_dots, Hw
        | apply ordinary_absent; [exact Hw | stages_in] | reflexivity].
  - rewrite escape_wrapped, code_stage_wrapped by (auto; reflexivity).
    cbn [restore]. unfold emphasis.
    rewrite (sub_wrapped re_bold_star) by (auto; try reflexivity; stages_in).
    assert (E : sub re_bold_under bold (str "_" ++ w ++ str "_") =
                str "_" ++ w ++ str "_").
    { unfold sub, sub_with, re_bold_under.
      rewrite (sub_from_no_pair unit "_" _ _ _ _ None tt false);
        [reflexivity|].
      cbn [str list_ascii_of_string app no_pair]. cbn [andb negb].
      rewrite no_pair_app by (apply ordinary_absent; [exact Hw | stages_in]).
      destruct w; [contradiction | reflexivity]. }
    rewrite E.
    rewrite (sub_wrapped re_italic_star) by (auto; try reflexivity; stages_in).
    change (str "_" ++ w ++ str "_") with ("_"%char :: w ++ str "_").
    rewrite (sub_whole re_italic_under italic "_" (w ++ str "_")
               [w] (Some "_"%char)).
    + change (italic [w]) with (str "<i>" ++ w ++ str "</i>").
      rewrite !sub_wrapped by (auto; try reflexivity; stages_in).
      reflexivity.
    + unfold re_italic_under. cbn [match_here str list_ascii_of_string app].
      change (word_boundary None ("_"%char :: w ++ ["_"%char])) with true.
      cbv iota. rewrite !Ascii.eqb_refl.
      apply (lazy_group_take "_" [WordB] w []);
        [exact Hne | apply ordinary_dots, Hw
        | apply ordinary_absent; [exact Hw | stages_in] | reflexivity].
Qed.

(** X12 on the text ["so so"]. *)
Lemma italic_of_ordinary_text_witness :
  _format_inline (str "*so so*") = str "<i>so so</i>" /\
  _format_inline (str "_so so_") = str "<i>so so</i>".
Proof.
  apply (italic_of_ordinary_text (str "so so"));
    [discriminate | repeat constructor].
Defined.




(** *** A marker alone *)

Lemma match_here_lit (c : ascii) (p : pattern) (prev : option ascii)
  (s : text) :
  match_here (Lit c :: p) prev (c :: s) = match_here p (Some c) s.
Proof. cbn [match_here]; rewrite Ascii.eqb_refl; reflexivity. Qed.

Lemma match_here_lit_neq (c d : ascii) (p : pattern) (prev : option ascii)
  (s : text) :
  c <> d -> match_here (Lit c :: p) prev (d :: s) = None.
Proof.
  intros H; cbn [match_here].
  destruct (Ascii.eqb_spec c d); [contradiction | reflexivity].
Qed.

Lemma match_here_wordb (p : pattern) (prev : option ascii) (s : text) :
  match_here (WordB :: p) prev s =
  if word_boundary prev s then match_here p prev s else None.
Proof. reflexivity. Qed.

Lemma match_here_group_absent (m : ascii) (p : pattern)
  (prev : option ascii) (s : text) :
  ~ In m s -> match_here (Group :: Lit m :: p) prev s = None.
Proof. intros H; apply (lazy_group_absent m p s H). Qed.

Lemma marker_free_absent (m : ascii) (b : text) :
  marker_free b -> is_marker m = true -> ~ In m b.
Proof.
  intros Hb Hm Hin. unfold marker_free in Hb; rewrite Forall_forall in Hb.
  rewrite (Hb m Hin) in Hm; discriminate.
Qed.

(** No stage finds a match at a marker that is followed by text without
    markers. *)
Lemma lone_marker_no_match (m : ascii) (b : text) (p : pattern) :
  is_marker m = true -> marker_free b -> In p stage_patterns ->
  forall prev, match_here p prev (m :: b) = None.
Proof.
  intros Hm Hb Hp prev.
  assert (A : forall x, is_marker x = true -> ~ In x b)
    by (intros x Hx; apply marker_free_absent; assumption).
  assert (B : forall x p' prev',
            is_marker x = true -> match_here (Lit x :: p') prev' b = None).
  { intros x p' prev' Hx. destruct b as [|d b]; [reflexivity|].
    apply match_here_lit_neq. intros <-. apply (A x Hx). left; reflexivity. }
  unfold is_marker in Hm.
  repeat (apply orb_true_iff in Hm; destruct Hm as [Hm|Hm]);
    apply Ascii.eqb_eq in Hm; subst m;
    unfold stage_patterns in Hp; cbn [In] in Hp;
    repeat (destruct Hp as [<-|Hp];
      [first
         [ apply ReFacts.match_here_starts; reflexivity
         | unfold re_code, re_italic_star, re_link;
           rewrite match_here_lit;
           apply match_here_group_absent, A; reflexivity
         | unfold re_italic_under;
           rewrite match_here_wordb, match_here_lit;
           rewrite match_here_group_absent by (apply A; reflexivity);
           destruct (word_boundary prev _); reflexivity
         | unfold re_bold_star, re_bold_under;
           rewrite match_here_lit; apply B; reflexivity ]|]);
    contradiction.
Qed.

(** X14. A text with a single marker character is only escaped: the
    marker stays in it as it is. *)
Theorem lone_marker_is_literal (a b : text) (m : ascii) :
  marker_free a -> marker_free b -> is_marker m = true ->
  _format_inline (a ++ m :: b) = escape (a ++ m :: b).
Proof.
  intros Ha Hb Hm.
  assert (Em : escape [m] = [m]).
  { apply escape_plain; repeat constructor.
    unfold is_marker in Hm.
    repeat (apply orb_true_iff in Hm; destruct Hm as [Hm|Hm]);
      apply Ascii.eqb_eq in Hm; subst m; reflexivity. }
  unfold _format_inline.
  change (a ++ m :: b) with (a ++ [m] ++ b).
  rewrite !escape_app, Em. cbn [app].
  apply InlineFacts.escape_marker_free in Ha, Hb.
  revert Ha Hb; generalize (escape a), (escape b); clear a b Em.
  intros a b Ha Hb.
  assert (L : forall p, In p stage_patterns ->
            forall St (repl : St -> list text -> St * text) n prev st,
              sub_from p repl n prev st (a ++ m :: b) = (st, a ++ m :: b)).
  { intros p Hp St repl n prev st. apply sub_from_lone.
    - eapply Forall_impl; [|exact Ha].
      intros c Hc; apply InlineFacts.marker_not_start; assumption.
    - eapply Forall_impl; [|exact Hb].
      intros c Hc; apply InlineFacts.marker_not_start; assumption.
    - apply lone_marker_no_match; assumption. }
  unfold sub_with. rewrite L by stages_in.
  cbn [restore]. unfold emphasis, sub, sub_with.
  rewrite (L re_bold_star) by stages_in; cbn [snd].
  rewrite (L re_bold_under) by stages_in; cbn [snd].
  rewrite (L re_italic_star) by stages_in; cbn [snd].
  rewrite (L re_italic_under) by stages_in; cbn [snd].
  rewrite (L re_link) by stages_in. reflexivity.
Qed.

(** X14 on the text ["2*3 < 7"]. *)
Lemma lone_marker_is_literal_witness :
  _format_inline (str "2*3 < 7") = str "2*3 &lt; 7".
Proof.
  apply (lone_marker_is_literal (str "2") (str "3 < 7") "*");
    [repeat constructor | repeat constructor | reflexivity].
Defined.

(** *** Underscores inside words *)

Lemma in_words_prev (p1 p2 : option ascii) (s : text) :
  in_word p1 = in_word p2 ->
  underscores_in_words p1 s = underscores_in_words p2 s.
Proof. intros H; destruct s; cbn [underscores_in_words]; congruence. Qed.

Lemma in_words_app (a b : text) :
  forall prev,
    underscores_in_words prev (a ++ b) =
    underscores_in_words prev a && underscores_in_words (last_of a prev) b.
Proof.
  induction a as [|c a IH]; intros prev; [reflexivity|].
  cbn [app underscores_in_words last_of fold_left].
  rewrite IH, andb_assoc. reflexivity.
Qed.

Lemma in_words_absent (s : text) :
  ~ In "_"%char s -> forall prev, underscores_in_words prev s = true.
Proof.
  induction s as [|c s IH]; intros H prev; [reflexivity|].
  cbn [underscores_in_words].
  destruct (Ascii.eqb_spec "_" c) as [<-|_];
    [exfalso; apply H; left; reflexivity|].
  apply IH. intros Hin; apply H; right; exact Hin.
Qed.

(** The rule [\b_(.+?)_\b] finds nothing where every underscore comes
    right after a word character. *)
Lemma sub_from_in_words (St : Type) (repl : St -> list text -> St * text) :
  forall s n prev st,
    underscores_in_words prev s = true ->
    sub_from re_italic_under repl n prev st s = (st, s).
Proof.
  induction s as [|c s IH]; intros n prev st H; [apply sub_from_nil|].
  destruct n as [|n]; [reflexivity|].
  cbn [underscores_in_words] in H.
  apply andb_true_iff in H; destruct H as [Hc H].
  rewrite sub_from_skip.
  - rewrite (IH n (Some c) st H). reflexivity.
  - unfold re_italic_under. rewrite match_here_wordb.
    destruct (Ascii.eqb_spec "_" c) as [<-|Hne].
    + cbn [negb orb] in Hc. destruct prev as [d|]; [|discriminate Hc].
      cbn [in_word] in Hc. apply andb_true_iff in Hc; destruct Hc as [Hd _].
      unfold word_boundary; cbn [isword_opt hd_error]. rewrite Hd.
      reflexivity.
    + rewrite match_here_lit_neq by exact Hne.
      destruct (word_boundary prev (c :: s)); reflexivity.
Qed.

Lemma in_words_no_pair (s : text) :
  forall prev after_m,
    (after_m = true -> in_word prev = false) ->
    underscores_in_words prev s = true ->
    no_pair "_" after_m s = true.
Proof.
  induction s as [|c s IH]; intros prev after_m Ha H; [reflexivity|].
  cbn [underscores_in_words] in H.
  apply andb_true_iff in H; destruct H as [Hc H].
  assert (Hn : Ascii.eqb "_" c = true -> in_word (Some c) = false)
    by (intros E; apply Ascii.eqb_eq in E; subst c; reflexivity).
  cbn [no_pair]. rewrite (IH (Some c) _ Hn H), andb_true_r.
  destruct (Ascii.eqb "_" c); [|rewrite andb_false_r; reflexivity].
  cbn [negb orb] in Hc. destruct after_m; [|reflexivity].
  rewrite Ha in Hc by reflexivity. discriminate Hc.
Qed.

Lemma entity_cases (c : ascii) :
  (is_special c = false /\ entity c = [c]) \/
  (is_special c = true /\ isword c = false /\
   In (entity c) [str "&amp;"; str "&lt;"; str "&gt;"]).
Proof.
  unfold entity, is_special.
  rewrite (Ascii.eqb_sym c "&"), (Ascii.eqb_sym c "<"), (Ascii.eqb_sym c ">").
  destruct (Ascii.eqb_spec "&" c) as [<-|Ha];
    [right; repeat split; cbn; tauto|].
  destruct (Ascii.eqb_spec "<" c) as [<-|Hl];
    [right; repeat split; cbn; tauto|].
  destruct (Ascii.eqb_spec ">" c) as [<-|Hg];
    [right; repeat split; cbn; tauto|].
  left; split; reflexivity.
Qed.

Lemma in_words_escape (t : text) :
  forall prev,
    underscores_in_words prev t = true ->
    underscores_in_words prev (escape t) = true.
Proof.
  rewrite SafeFacts.escape_pointwise.
  induction t as [|c t IH]; intros prev H; [reflexivity|].
  cbn [underscores_in_words] in H.
  apply andb_true_iff in H; destruct H as [Hc H].
  cbn [flat_map]. rewrite in_words_app.
  destruct (entity_cases c) as [[_ ->]|(Hs & Hw & He)].
  - cbn [underscores_in_words last_of fold_left].
    rewrite Hc, (IH _ H). reflexivity.
  - assert (Hp : in_word (Some c) = false)
      by (cbn [in_word]; rewrite Hw; reflexivity).
    apply IH in H.
    cbn [In] in He.
    repeat (destruct He as [<-|He];
      [apply andb_true_iff; split; [reflexivity|];
       cbn [last_of fold_left str list_ascii_of_string];
       rewrite (in_words_prev (Some ";"%char) (Some c))
         by (rewrite Hp; reflexivity);
       exact H|]).
    contradiction.
Qed.

Lemma opening_escape (t : text) :
  Forall (fun c => is_opening c = false) t ->
  Forall (fun c => is_opening c = false) (escape t).
Proof.
  intros H; unfold escape, Str.replace.
  repeat apply StrFacts.replace_from_Forall; try exact H;
    repeat constructor.
Qed.

Ltac opening_char H :=
  cbv [starts re_code re_bold_star re_italic_star re_link];
  repeat match goal with
    | |- context [Ascii.eqb ?a ?c] =>
        destruct (Ascii.eqb_spec a c) as [<-|_];
        [vm_compute in H; discriminate H|]
    end;
  reflexivity.

(** X16. Underscores inside words are no markers: a text without
    backtick, star and opening bracket in which every underscore comes
    right after a letter or a digit is only escaped. *)
Theorem underscores_in_words_are_literal (t : text) :
  Forall (fun c => is_opening c = false) t ->
  underscores_in_words None t = true ->
  _format_inline t = escape t.
Proof.
  intros Ho Hu. apply opening_escape in Ho. apply in_words_escape in Hu.
  unfold _format_inline. revert Ho Hu; generalize (escape t); clear t.
  intros t Ho Hu.
  assert (Hs : forall p, In p [re_code; re_bold_star; re_italic_star; re_link]
               -> Forall (fun c => starts p c = false) t).
  { intros p Hp; eapply Forall_impl; [|exact Ho].
    intros c Hc; cbn [In] in Hp.
    repeat (destruct Hp as [<-|Hp]; [opening_char Hc|]). contradiction. }
  unfold sub_with. rewrite ReFacts.sub_from_id by (apply Hs; stages_in).
  cbn [restore]. unfold emphasis.
  rewrite (ReFacts.sub_id re_bold_star) by (apply Hs; stages_in).
  assert (E1 : sub re_bold_under bold t = t).
  { unfold sub, sub_with, re_bold_under.
    rewrite (sub_from_no_pair unit "_" _ _ _ _ None tt false);
      [reflexivity|].
    apply (in_words_no_pair t None false); [discriminate | exact Hu]. }
  rewrite E1.
  rewrite (ReFacts.sub_id re_italic_star) by (apply Hs; stages_in).
  assert (E2 : sub re_italic_under italic t = t).
  { unfold sub, sub_with. rewrite sub_from_in_words by exact Hu.
    reflexivity. }
  rewrite E2. apply ReFacts.sub_id, Hs; stages_in.
Qed.

(** X16 on a sentence with two identifiers. *)
Lemma underscores_in_words_witness :
  _format_inline (str "see snake_case_name & file_2") =
    str "see snake_case_name &amp; file_2".
Proof.
  rewrite (underscores_in_words_are_literal
             (str "see snake_case_name & file_2"));
    [reflexivity | repeat constructor | reflexivity].
Defined.

(** *** A code span in ordinary text *)

(** One match between two texts in which none can begin. *)
Lemma sub_with_one_match (St : Type) (p : pattern)
  (repl : St -> list text -> St * text) (pre post s : text) (x : ascii)
  (gs : list text) (last : option ascii) (st : St) :
  Forall (fun c => starts p c = false) pre ->
  Forall (fun c => starts p c = false) post ->
  (forall prev, match_here p prev (x :: s ++ post) = Some (gs, last, post)) ->
  sub_with p repl st (pre ++ x :: s ++ post) =
    (fst (repl st gs), pre ++ snd (repl st gs) ++ post).
Proof.
  intros Hpre Hpost Hm. unfold sub_with.
  destruct (ReFacts.sub_from_prefix St p repl pre Hpre
              (List.length (pre ++ x :: s ++ post)) None st
              (x :: s ++ post)) as [prev' ->].
  replace (List.length (pre ++ x :: s ++ post) - List.length pre)
    with (S (List.length (s ++ post)))
    by (rewrite !length_app; cbn [List.length]; rewrite ?length_app; lia).
  cbn [sub_from]. rewrite Hm.
  destruct (repl st gs) as [st1 out].
  rewrite ReFacts.sub_from_id by exact Hpost. reflexivity.
Qed.

Lemma around_not_start (p : pattern) (pre mid post : text) :
  In p stage_patterns ->
  Forall (fun c => ordinary c = true) pre ->
  Forall (fun c => ordinary c = true) post ->
  forallb (fun c => negb (starts p c)) mid = true ->
  Forall (fun c => starts p c = false) (pre ++ mid ++ post).
Proof.
  intros Hp Hpre Hpost Hmid.
  apply Forall_app; split; [apply ordinary_not_start; assumption|].
  apply Forall_app; split;
    [apply forallb_not_start, Hmid | apply ordinary_not_start; assumption].
Qed.

Lemma escape_chars (c : text) (x : ascii) :
  In x (escape c) -> In x c \/ In x (str "&amp;lt;gt;").
Proof.
  rewrite SafeFacts.escape_pointwise, in_flat_map.
  intros (y & Hy & Hx).
  destruct (entity_cases y) as [[_ E]|(_ & _ & E)].
  - rewrite E in Hx. destruct Hx as [<-|[]]. left; exact Hy.
  - right. cbn [In] in E.
    repeat (destruct E as [E|E];
            [rewrite <- E in Hx; cbn in Hx |- *; tauto|]).
    contradiction.
Qed.

(** X10. Whatever stands in a code span amid ordinary text, it is lost:
    the span is extracted to the placeholder 0, the rule for [__bold__]
    takes the placeholder, and the restoring loop finds nothing to
    replace. *)
Theorem code_span_content_lost (pre post c : text) :
  Forall (fun x => ordinary x = true) pre ->
  Forall (fun x => ordinary x = true) post ->
  c <> [] -> ~ In "`"%char c -> ~ In Str.newline c ->
  _format_inline (pre ++ str "`" ++ c ++ str "`" ++ post) =
    pre ++ str "<b>CODE_PLACEHOLDER_0</b>" ++ post.
Proof.
  intros Hpre Hpost Hne Hbt Hnl. unfold _format_inline.
  rewrite !escape_app.
  rewrite (escape_plain pre), (escape_plain post)
    by (apply ordinary_plain; assumption).
  change (escape (str "`")) with (str "`").
  assert (Hc : escape c <> [] /\ ~ In "`"%char (escape c) /\
               Forall (fun x => dot x = true) (escape c)).
  { split; [|split].
    - destruct c as [|x c]; [contradiction|].
      change (x :: c) with ([x] ++ c). rewrite escape_app.
      rewrite SafeFacts.escape_pointwise. cbn [flat_map].
      destruct (entity_head x) as [r ->]. discriminate.
    - intros H; apply escape_chars in H; destruct H as [H|H];
        [exact (Hbt H)|].
      cbn in H. repeat (destruct H as [H|H]; [discriminate H|]). exact H.
    - apply Forall_forall; intros x H.
      apply escape_chars in H; destruct H as [H|H].
      + unfold dot. destruct (Ascii.eqb_spec x Str.newline) as [->|_];
          [contradiction | reflexivity].
      + cbn in H.
        repeat (destruct H as [<-|H]; [reflexivity|]). contradiction. }
  revert Hc; generalize (escape c); clear c Hne Hbt Hnl.
  intros c (Hne & Hbt & Hdot).
  (* the code span becomes the placeholder 0 *)
  replace (pre ++ str "`" ++ c ++ str "`" ++ post)
    with (pre ++ "`"%char :: (c ++ str "`") ++ post)
    by (rewrite <- (app_assoc c); reflexivity).
  rewrite (sub_with_one_match (list text) re_code save_code pre post
             (c ++ str "`") "`" [c] (Some "`"%char) []).
  2:{ apply ordinary_not_start; [exact Hpre | stages_in]. }
  2:{ apply ordinary_not_start; [exact Hpost | stages_in]. }
  2:{ intros prev. unfold re_code. rewrite match_here_lit.
      rewrite <- app_assoc.
      apply (lazy_group_take "`" [] c post); auto. }
  change (fst (save_code [] [c])) with [c].
  change (snd (save_code [] [c])) with (str "__CODE_PLACEHOLDER_0__").
  (* the placeholder is taken as bold markup *)
  unfold emphasis.
  rewrite (ReFacts.sub_id re_bold_star)
    by (apply around_not_start;
        [stages_in | exact Hpre | exact Hpost | reflexivity]).
  assert (E1 : sub re_bold_under bold
                 (pre ++ str "__CODE_PLACEHOLDER_0__" ++ post) =
               pre ++ str "<b>CODE_PLACEHOLDER_0</b>" ++ post).
  { unfold sub.
    change (pre ++ str "__CODE_PLACEHOLDER_0__" ++ post)
      with (pre ++ "_"%char :: str "_CODE_PLACEHOLDER_0__" ++ post).
    rewrite (sub_with_one_match unit re_bold_under _ pre post
               (str "_CODE_PLACEHOLDER_0__") "_"
               [str "CODE_PLACEHOLDER_0"] (Some "_"%char) tt);
      [reflexivity
      | apply ordinary_not_start; [exact Hpre | stages_in]
      | apply ordinary_not_start; [exact Hpost | stages_in]
      | intros prev; reflexivity]. }
  rewrite E1.
  rewrite (ReFacts.sub_id re_italic_star)
    by (apply around_not_start;
        [stages_in | exact Hpre | exact Hpost | reflexivity]).
  assert (Hun : forall a, In a [pre; post] -> ~ In "_"%char a).
  { intros a [<-|[<-|[]]]; apply ordinary_absent; auto; stages_in. }
  assert (E2 : sub re_italic_under italic
                 (pre ++ str "<b>CODE_PLACEHOLDER_0</b>" ++ post) =
               pre ++ str "<b>CODE_PLACEHOLDER_0</b>" ++ post).
  { unfold sub, sub_with. rewrite sub_from_in_words; [reflexivity|].
    rewrite !in_words_app.
    rewrite (in_words_absent pre), (in_words_absent post)
      by (apply Hun; cbn; tauto).
    reflexivity. }
  rewrite E2.
  rewrite (ReFacts.sub_id re_link)
    by (apply around_not_start;
        [stages_in | exact Hpre | exact Hpost | reflexivity]).
  (* nothing is left to restore *)
  cbn [restore]. unfold Str.replace.
  change (placeholder 0)
    with ("_"%char :: "_"%char :: str "CODE_PLACEHOLDER_0__").
  rewrite (SafeFacts.replace_from_sub _ _ _ _ None).
  cbn [map].
  rewrite (sub_from_no_pair unit "_" _ _ _ _ None tt false);
    [reflexivity|].
  rewrite (no_pair_app "_" pre) by (apply Hun; cbn; tauto).
  assert (Hmid : forall b,
             no_pair "_" b (str "<b>CODE_PLACEHOLDER_0</b>" ++ post) =
             no_pair "_" false post).
  { intros b; cbn [str list_ascii_of_string app no_pair].
    rewrite andb_false_r. reflexivity. }
  rewrite Hmid. apply (no_pair_absent "_" post), Hun; cbn; tauto.
Qed.

(** X10 on a sentence with a shell command. *)
Lemma code_span_content_lost_witness :
  _format_inline (str "run `rm -rf *` now") =
    str "run <b>CODE_PLACEHOLDER_0</b> now".
Proof.
  apply (code_span_content_lost (str "run ") (str " now") (str "rm -rf *"));
    [repeat constructor | repeat constructor | discriminate | |].
  - cbn; intros H; repeat (destruct H as [H|H]; [discriminate H|]); exact H.
  - cbn; intros H; repeat (destruct H as [H|H]; [discriminate H|]); exact H.
Defined.

End InlineMore.

(** * More on the parser *)

Module ParseMore.
Import Re Props MarkdownToPDF.

(** *** Lines and texts *)

Lemma split_lines_cons (s : text) :
  exists l ls, Str.split_lines s = l :: ls.
Proof.
  induction s as [|c s (l & ls & E)]; cbn [Str.split_lines].
  - eexists _, _; reflexivity.
  - destruct (Ascii.eqb c Str.newline); [eexists _, _; reflexivity|].
    rewrite E; eexists _, _; reflexivity.
Qed.

Lemma split_lines_app (a b : text) :
  Str.split_lines (a ++ Str.newline :: b) =
  Str.split_lines a ++ Str.split_lines b.
Proof.
  induction a as [|c a IH]; cbn [app Str.split_lines].
  - rewrite Ascii.eqb_refl. reflexivity.
  - destruct (Ascii.eqb c Str.newline); [rewrite IH; reflexivity|].
    rewrite IH. destruct (split_lines_cons a) as (l & ls & ->).
    reflexivity.
Qed.

Lemma split_lines_one (a : text) :
  ~ In Str.newline a -> Str.split_lines a = [a].
Proof.
  induction a as [|c a IH]; intros H; [reflexivity|].
  cbn [Str.split_lines].
  destruct (Ascii.eqb_spec c Str.newline) as [->|_];
    [exfalso; apply H; left; reflexivity|].
  rewrite IH by (intros Hin; apply H; right; exact Hin). reflexivity.
Qed.

(** Joining the lines of a text with newlines gives the text back. *)
Lemma join_split_lines (s : text) :
  Str.join_lines (Str.split_lines s) = s.
Proof.
  induction s as [|c s IH]; [reflexivity|].
  cbn [Str.split_lines].
  destruct (split_lines_cons s) as (l & ls & E). rewrite E in *.
  destruct (Ascii.eqb_spec c Str.newline) as [->|_].
  - change (Str.join_lines ([] :: l :: ls))
      with (Str.newline :: Str.join_lines (l :: ls)).
    rewrite IH. reflexivity.
  - rewrite <- IH. destruct ls; reflexivity.
Qed.

Lemma step_open_fence (st : state) (line : text) :
  in_code_block st = false -> is_fence line = true ->
  step st line =
    {| flowables := flowables st; in_code_block := true;
       code_block_lines := [];
       in_list := in_list st; list_items := list_items st |}.
Proof.
  intros Hin Ho. unfold step. unfold is_fence in Ho. rewrite Ho, Hin.
  reflexivity.
Qed.

(** X1. A text between two fence lines is kept as it is: whatever the
    text, as long as none of its lines is a fence, the document parses to
    one [Preformatted] holding exactly that text, and its spacer.  What
    follows the backticks on the fence lines is not looked at. *)
Theorem fenced_text_verbatim (open close s : text) :
  is_fence open = true -> is_fence close = true ->
  ~ In Str.newline open -> ~ In Str.newline close ->
  Forall (fun l => is_fence l = false) (Str.split_lines s) ->
  parse_markdown (open ++ Str.newline :: s ++ Str.newline :: close) =
    [Preformatted s Code; Spacer 1 20].
Proof.
  intros Ho Hc Hno Hnc Hs. unfold parse_markdown, parse_lines, run.
  rewrite !split_lines_app, (split_lines_one open Hno),
    (split_lines_one close Hnc).
  cbn [app fold_left]. rewrite fold_left_app. cbn [fold_left].
  rewrite (step_open_fence initial open eq_refl Ho).
  match goal with
  | |- context [fold_left step (Str.split_lines s) ?st] =>
      change (fold_left step (Str.split_lines s) st)
        with (run st (Str.split_lines s));
      rewrite (ParseFacts.run_code_lines (Str.split_lines s) st eq_refl Hs)
  end.
  unfold step. unfold is_fence in Hc. rewrite Hc.
  cbn. rewrite join_split_lines. reflexivity.
Qed.

(** X1 on a block whose lines look like a heading and a list item. *)
Lemma fenced_text_verbatim_witness :
  parse_markdown
    (str "```python" ++ Str.newline ::
       (str "# not a heading" ++ Str.newline :: str "- *not* a list")
       ++ Str.newline :: str "```") =
    [Preformatted
       (str "# not a heading" ++ Str.newline :: str "- *not* a list") Code;
     Spacer 1 20].
Proof.
  apply (fenced_text_verbatim (str "```python") (str "```")
           (str "# not a heading" ++ Str.newline :: str "- *not* a list"));
    try reflexivity;
    try (cbn; intros H; repeat (destruct H as [H|H]; [discriminate H|]);
         exact H).
  repeat constructor.
Defined.

(** *** Blank lines *)

Lemma blank_not_hash (line : text) (p : text) :
  Str.strip line = [] -> Str.startswith line ("#"%char :: p) = false.
Proof.
  intros H. destruct line as [|c line]; [reflexivity|].
  destruct (Ascii.eqb_spec "#" c) as [<-|Hne];
    [|apply StrFacts.startswith_head, Hne].
  unfold Str.strip in H. cbn [Str.lstrip] in H.
  change (Str.isspace "#") with false in H. cbv iota in H.
  rewrite StrFacts.rstrip_cons in H by reflexivity. discriminate H.
Qed.

(** Outside code mode and outside a list, a blank line changes
    nothing. *)
Lemma step_blank (st : state) (line : text) :
  in_code_block st = false -> in_list st = false ->
  Str.strip line = [] -> step st line = st.
Proof.
  intros Hc Hl Hb. unfold step. rewrite Hb, Hc, Hl.
  change (str "# ") with ("#"%char :: str " ").
  change (str "## ") with ("#"%char :: str "# ").
  change (str "### ") with ("#"%char :: str "## ").
  rewrite !blank_not_hash by exact Hb. reflexivity.
Qed.

(** X2. A document of blank lines only, the empty document among them,
    gives no flowable at all. *)
Theorem blank_document_is_empty (lines : list text) :
  Forall (fun l => Str.strip l = []) lines -> parse_lines lines = [].
Proof.
  intros H. unfold parse_lines.
  assert (E : run initial lines = initial).
  { unfold run. induction H as [|l ls Hl _ IH]; [reflexivity|].
    cbn [fold_left]. rewrite (step_blank initial l eq_refl eq_refl Hl).
    exact IH. }
  rewrite E. reflexivity.
Qed.

(** X2 on the empty document and on three blank lines. *)
Lemma blank_document_is_empty_witness :
  parse_markdown [] = [] /\
  parse_markdown (str "  " ++ Str.newline :: Str.newline :: str " ") = [].
Proof.
  split; apply blank_document_is_empty; repeat constructor.
Defined.

(** *** What an iteration keeps *)

Ltac step_cases :=
  unfold step, flush_list, emit, close_list;
  repeat match goal with
    | |- context [if ?b then _ else _] => destruct b eqn:?
    end;
  cbn [flowables in_code_block code_block_lines in_list list_items] in *.

Lemma step_appends (st : state) (line : text) :
  exists fs, flowables (step st line) = flowables st ++ fs.
Proof.
  step_cases;
    solve [ exists []; symmetry; apply app_nil_r
          | rewrite <- ?app_assoc; eexists; reflexivity ].
Qed.

Lemma run_appends (lines : list text) :
  forall st, exists fs, flowables (run st lines) = flowables st ++ fs.
Proof.
  unfold run; induction lines as [|l ls IH]; intros st; cbn [fold_left].
  - exists []; symmetry; apply app_nil_r.
  - destruct (IH (step st l)) as [fs2 ->].
    destruct (step_appends st l) as [fs1 ->].
    rewrite <- app_assoc; eexists; reflexivity.
Qed.

(** X3. Flowables are only ever appended: what has been produced after
    some lines is the beginning of what is produced after more lines,
    and of the result of the whole document. *)
Theorem flowables_only_grow (a b : list text) :
  exists fs, parse_lines (a ++ b) = flowables (run initial a) ++ fs.
Proof.
  unfold parse_lines. unfold run at 1. rewrite fold_left_app.
  change (fold_left step a initial) with (run initial a).
  change (fold_left step b (run initial a)) with (run (run initial a) b).
  destruct (run_appends b (run initial a)) as [fs E].
  unfold finish. rewrite E.
  destruct (in_list _ && truthy _);
    [rewrite <- app_assoc|]; eexists; reflexivity.
Qed.

Lemma step_consistent (st : state) (line : text) :
  consistent st -> consistent (step st line).
Proof.
  destruct st as [fl cb cl il li]. unfold consistent.
  cbn [flowables in_code_block code_block_lines in_list list_items].
  intros [Hl Hc].
  step_cases;
    (split;
     [ split; intros H; try discriminate H; try congruence;
       try (apply Hl; exact H); try (apply Hl in H; exact H);
       try (destruct li; discriminate);
       try (exfalso; apply H; reflexivity)
     | intros H; try discriminate H; try reflexivity; try (apply Hc, H);
       try (apply Hc; assumption); try congruence ]).
Qed.

(** X4. At every iteration the list accumulator is non-empty exactly in
    list mode, and the code accumulator is empty outside code mode. *)
Theorem run_consistent (lines : list text) : consistent (run initial lines).
Proof.
  assert (G : forall st, consistent st -> consistent (run st lines)).
  { unfold run; induction lines as [|l ls IH]; intros st H; [exact H|].
    cbn [fold_left]. apply IH, step_consistent, H. }
  apply G. split; [split; [discriminate | intros H; contradiction]|].
  reflexivity.
Qed.

(** *** Fences and code blocks *)

Lemma code_blocks_app (a b : list flowable) :
  code_blocks (a ++ b) = code_blocks a + code_blocks b.
Proof. unfold code_blocks; rewrite filter_app, length_app; reflexivity. Qed.

Lemma step_fence (st : state) (line : text) :
  is_fence line = true ->
  in_code_block (step st line) = negb (in_code_block st) /\
  code_blocks (flowables (step st line)) =
    code_blocks (flowables st) + (if in_code_block st then 1 else 0).
Proof.
  intros H; unfold step. unfold is_fence in H; rewrite H.
  destruct (in_code_block st);
    cbn [negb flowables in_code_block]; rewrite ?code_blocks_app;
    split; reflexivity || (cbn; lia).
Qed.

Lemma step_no_fence (st : state) (line : text) :
  is_fence line = false ->
  in_code_block (step st line) = in_code_block st /\
  code_blocks (flowables (step st line)) = code_blocks (flowables st).
Proof.
  intros H; unfold is_fence in H.
  unfold step; rewrite H.
  destruct st as [fl cb cl il li].
  step_cases; rewrite ?code_blocks_app; split;
    reflexivity || congruence || (cbn; lia).
Qed.

Lemma fences_cons (l : text) (ls : list text) :
  fences (l :: ls) = (if is_fence l then 1 else 0) + fences ls.
Proof. unfold fences; cbn [filter]; destruct (is_fence l); reflexivity. Qed.

Lemma run_fences (lines : list text) :
  forall st,
    in_code_block (run st lines) =
      xorb (in_code_block st) (Nat.odd (fences lines)) /\
    code_blocks (flowables (run st lines)) =
      code_blocks (flowables st)
      + (fences lines + (if in_code_block st then 1 else 0)) / 2.
Proof.
  unfold run; induction lines as [|l ls IH]; intros st; cbn [fold_left].
  - change (fences []) with 0. cbn [Nat.odd Nat.add].
    rewrite xorb_false_r. split; [reflexivity|].
    destruct (in_code_block st); cbn; lia.
  - destruct (IH (step st l)) as [E1 E2]. rewrite E1, E2, fences_cons.
    destruct (is_fence l) eqn:F.
    + destruct (step_fence st l F) as [-> ->].
      change (1 + fences ls) with (S (fences ls)).
      rewrite Nat.odd_succ, <- Nat.negb_odd.
      destruct (in_code_block st); cbn [negb]; split.
      * destruct (Nat.odd (fences ls)); reflexivity.
      * replace (S (fences ls) + 1) with (fences ls + 0 + 1 * 2) by lia.
        rewrite Nat.div_add by discriminate. lia.
      * destruct (Nat.odd (fences ls)); reflexivity.
      * replace (S (fences ls) + 0) with (fences ls + 1) by lia. lia.
    + destruct (step_no_fence st l F) as [-> ->]. split; reflexivity.
Qed.

(** X5. The fences toggle code mode: after the loop the parser is in
    code mode exactly when the number of fence lines is odd, and the
    document has one code block for every two fence lines. *)
Theorem code_blocks_count (lines : list text) :
  in_code_block (run initial lines) = Nat.odd (fences lines) /\
  code_blocks (parse_lines lines) = fences lines / 2.
Proof.
  destruct (run_fences lines initial) as [E1 E2]. split; [exact E1|].
  change (code_blocks (flowables initial)) with 0 in E2.
  change (if in_code_block initial then 1 else 0) with 0 in E2.
  rewrite Nat.add_0_r in E2. cbn [Nat.add] in E2.
  unfold parse_lines, finish.
  destruct (in_list _ && truthy _); rewrite ?code_blocks_app, E2;
    [apply Nat.add_0_r | reflexivity].
Qed.

(** *** List items *)

Lemma items_of_app (a b : list flowable) :
  items_of (a ++ b) = items_of a ++ items_of b.
Proof. apply flat_map_app. Qed.

Lemma step_items (st : state) (line : text) :
  in_code_block st = false ->
  is_fence line = false ->
  (in_list st = false -> list_items st = []) ->
  in_code_block (step st line) = false /\
  (in_list (step st line) = false -> list_items (step st line) = []) /\
  items_of (flowables (step st line)) ++ list_items (step st line) =
    items_of (flowables st) ++ list_items st
    ++ (if is_list_line line then [list_item line] else []).
Proof.
  destruct st as [fl cb cl il li].
  cbn [flowables in_code_block code_block_lines in_list list_items].
  intros -> Hf Hl. unfold is_fence in Hf.
  unfold is_list_line, list_item, step. rewrite Hf.
  destruct il; [destruct li | rewrite (Hl eq_refl)];
    step_cases; rewrite ?items_of_app; cbn [items_of flat_map app];
    rewrite ?app_nil_r;
    repeat split; try reflexivity; try discriminate; try congruence.
Qed.

Lemma run_items (lines : list text) :
  Forall (fun l => is_fence l = false) lines ->
  forall st,
    in_code_block st = false ->
    (in_list st = false -> list_items st = []) ->
    items_of (finish (run st lines)) =
      items_of (flowables st) ++ list_items st
      ++ map list_item (filter is_list_line lines).
Proof.
  unfold run; induction 1 as [|l ls Hl _ IH]; intros st Hc Hi;
    cbn [fold_left filter map].
  - rewrite app_nil_r. unfold finish.
    destruct (in_list st) eqn:E; cbn [andb].
    + destruct (list_items st); cbn [truthy];
        [rewrite app_nil_r; reflexivity|].
      rewrite items_of_app. cbn [items_of flat_map]. rewrite app_nil_r.
      reflexivity.
    + rewrite (Hi eq_refl), app_nil_r. reflexivity.
  - destruct (step_items st l Hc Hl Hi) as (Hc' & Hi' & E).
    rewrite (IH _ Hc' Hi'), app_assoc, E, <- !app_assoc.
    destruct (is_list_line l); reflexivity.
Qed.

(** In a document without fence lines, when every constructor returns,
    the items of all the lists of the result, in order, are the items of
    the lines that pass the list test, in order. *)
Lemma items_of_parse_lines (lines : list text) :
  Forall (fun l => is_fence l = false) lines ->
  items_of (parse_lines lines) = map list_item (filter is_list_line lines).
Proof.
  intros H. unfold parse_lines.
  rewrite (run_items lines H initial eq_refl (fun _ => eq_refl)).
  reflexivity.
Qed.

(** *** Headings *)

(** The flowables of the three heading levels, when every constructor
    returns. *)
Lemma heading_levels_flowables (a b c : text) :
  parse_lines [str "# " ++ a; str "## " ++ b; str "### " ++ c] =
    [Para (Paragraph (_format_inline (Str.strip a)) Heading1); Spacer 1 15;
     PageBreak;
     Para (Paragraph (_format_inline (Str.strip b)) Heading2); Spacer 1 12;
     Para (Paragraph (_format_inline (Str.strip c)) Heading3); Spacer 1 10].
Proof.
  unfold parse_lines, run. cbn [fold_left].
  destruct (ParseFacts.list_closed_before_heading initial a eq_refl)
    as (E1 & _ & _). cbv zeta in E1. rewrite E1.
  match goal with
  | |- context [step ?st (str "## " ++ b)] =>
      destruct (ParseFacts.list_closed_before_heading st b eq_refl)
        as (_ & E2 & _); cbv zeta in E2; rewrite E2
  end.
  match goal with
  | |- context [step ?st (str "### " ++ c)] =>
      destruct (ParseFacts.list_closed_before_heading st c eq_refl)
        as (_ & _ & E3); cbv zeta in E3; rewrite E3
  end.
  reflexivity.
Qed.

Lemma strip_hashes (k : nat) (rest : text) :
  Str.strip (hashes (S k) ++ " "%char :: rest) =
  hashes (S k) ++ Str.rstrip (" "%char :: rest).
Proof.
  unfold Str.strip, hashes; cbn [repeat app Str.lstrip].
  change (Str.isspace "#") with false; cbv iota.
  apply (ParseFacts.rstrip_hashes (S k)).
Qed.

Lemma hashes_inert (n : nat) : Forall (fun c => inert c = true) (hashes n).
Proof. unfold hashes; induction n; constructor; auto. Qed.

(** *** The marker of a list item *)

Lemma greedy_plus_all (f : ascii -> bool) (k : ascii -> text -> result)
  (ws x : text) (d : ascii) (r : list text * option ascii * text) :
  Forall (fun c => f c = true) (ws ++ [d]) ->
  match x with [] => True | c :: _ => f c = false end ->
  k d x = Some r ->
  greedy_plus f k ((ws ++ [d]) ++ x) = Some r.
Proof.
  intros Hws Hx Hk. induction ws as [|c ws IH]; cbn [app] in *.
  - inversion Hws as [|? ? Hd _]; subst.
    cbn [greedy_plus]. rewrite Hd.
    destruct x as [|c x]; cbn [greedy_plus]; [exact Hk|].
    rewrite Hx. exact Hk.
  - inversion Hws as [|? ? Hc Hws']; subst.
    cbn [greedy_plus]. rewrite Hc, (IH Hws'). reflexivity.
Qed.

(** After the start of the text, [^] fails: nothing more is replaced. *)
Lemma sub_from_after_start (St : Type) (p : pattern)
  (repl : St -> list text -> St * text) :
  forall s n d st, sub_from (Bos :: p) repl n (Some d) st s = (st, s).
Proof.
  induction s as [|c s IH]; intros n d st; destruct n as [|n];
    try reflexivity.
  cbn [sub_from match_here]. rewrite IH. reflexivity.
Qed.

(** The marker and all the whitespace after it are removed, and nothing
    else. *)
Lemma list_marker_removed (m d : ascii) (ws x : text) :
  is_list_marker m = true ->
  Forall (fun c => Str.isspace c = true) (ws ++ [d]) ->
  match x with [] => True | c :: _ => Str.isspace c = false end ->
  sub re_list_marker (fun _ => []) (m :: (ws ++ [d]) ++ x) = x.
Proof.
  intros Hm Hws Hx. unfold sub, sub_with, re_list_marker.
  cbn [List.length sub_from match_here]. rewrite Hm.
  rewrite (greedy_plus_all Str.isspace _ ws x d ([], Some d, x) Hws Hx eq_refl).
  rewrite sub_from_after_start. reflexivity.
Qed.

End ParseMore.

(** * The parser with the errors of the constructor: facts *)

Module CheckedFacts.
Import Re Props MarkdownToPDF.

Lemma paragraphs_of_app (a b : list flowable) :
  paragraphs_of (a ++ b) = paragraphs_of a ++ paragraphs_of b.
Proof. apply flat_map_app. Qed.

Lemma forallb_false_In (A : Type) (f : A -> bool) (l : list A) :
  forallb f l = false <-> exists x, In x l /\ f x = false.
Proof.
  split.
  - induction l as [|a l IH]; cbn [forallb]; [discriminate|].
    destruct (f a) eqn:E; cbn [andb]; intros H.
    + destruct (IH H) as (x & Hx & Fx). exists x; split; [right|]; assumption.
    + exists a; split; [left; reflexivity | exact E].
  - intros (x & Hx & Fx). destruct (forallb f l) eqn:E; [|reflexivity].
    rewrite forallb_forall in E. rewrite (E x Hx) in Fx. discriminate Fx.
Qed.

Section Bridge.
Variable accepts : text -> style -> bool.

Ltac both_cases :=
  unfold Checked.step, Checked.new_paragraph, step, flush_list, emit,
    close_list;
  repeat match goal with
    | |- context [if ?b then _ else _] => destruct b eqn:?
    end;
  cbn [flowables in_code_block code_block_lines in_list list_items] in *.

(** An iteration of the checked loop either raises, and then a paragraph
    the unchecked iteration holds is rejected, or ends in the state of
    the unchecked iteration, whose paragraphs are all accepted. *)
Lemma step_checked (st : state) (line : text) :
  list_kept st ->
  forallb (acceptable accepts) (all_paragraphs st) = true ->
  match Checked.step accepts st line with
  | Some st' =>
      st' = step st line /\
      forallb (acceptable accepts) (all_paragraphs st') = true
  | None =>
      forallb (acceptable accepts) (all_paragraphs (step st line)) = false
  end.
Proof.
  destruct st as [fl cb cl il li]. unfold list_kept, all_paragraphs.
  cbn [flowables in_code_block code_block_lines in_list list_items].
  intros Hl Ha. rewrite forallb_app in Ha.
  apply andb_true_iff in Ha as [Ha1 Ha2].
  destruct il; [destruct li | rewrite (Hl eq_refl) in *];
    both_cases; try split; try reflexivity;
    rewrite ?paragraphs_of_app, ?forallb_app;
    cbn [paragraphs_of flat_map forallb app acceptable para_text para_style]
      in *;
    rewrite ?forallb_app;
    cbn [paragraphs_of flat_map forallb app acceptable para_text para_style];
    rewrite ?Ha1, ?Ha2; unfold acceptable in *;
    cbn [para_text para_style] in *;
    repeat match goal with H : accepts _ _ = _ |- _ => rewrite H end;
    try (apply andb_true_iff in Ha2 as [-> ->]);
    cbn [andb]; rewrite ?andb_false_r; try reflexivity; try discriminate.
Qed.

(** The unchecked iteration keeps the pending list empty outside list
    mode, and every paragraph it holds. *)
Lemma step_keeps (st : state) (line : text) :
  list_kept st ->
  list_kept (step st line) /\
  incl (all_paragraphs st) (all_paragraphs (step st line)).
Proof.
  destruct st as [fl cb cl il li]. unfold list_kept, all_paragraphs.
  cbn [flowables in_code_block code_block_lines in_list list_items].
  intros Hl.
  destruct il; [destruct li | rewrite (Hl eq_refl) in *];
    both_cases;
    (split;
     [ intros H; try reflexivity; try discriminate H; try congruence;
       try (apply Hl; exact H)
     | rewrite ?paragraphs_of_app;
       cbn [paragraphs_of flat_map app]; rewrite ?app_nil_r;
       cbn [negb andb truthy] in *; try congruence;
       intros x Hx; repeat rewrite in_app_iff in *; cbn [In] in *;
       repeat rewrite in_app_iff in *; cbn [In] in *; tauto ]).
Qed.

Lemma run_keeps (lines : list text) :
  forall st,
    list_kept st ->
    list_kept (run st lines) /\
    incl (all_paragraphs st) (all_paragraphs (run st lines)).
Proof.
  unfold run; induction lines as [|l ls IH]; intros st H; cbn [fold_left].
  - split; [exact H | apply incl_refl].
  - destruct (step_keeps st l H) as [H1 I1].
    destruct (IH _ H1) as [H2 I2].
    split; [exact H2 | eapply incl_tran; eassumption].
Qed.

Lemma run_checked (lines : list text) :
  forall st,
    list_kept st ->
    forallb (acceptable accepts) (all_paragraphs st) = true ->
    Checked.run accepts st lines =
      if forallb (acceptable accepts) (all_paragraphs (run st lines))
      then Some (run st lines) else None.
Proof.
  induction lines as [|l ls IH]; intros st Hk Ha;
    cbn [Checked.run]; unfold run; cbn [fold_left].
  - rewrite Ha; reflexivity.
  - pose proof (step_checked st l Hk Ha) as S.
    destruct (step_keeps st l Hk) as [Hk' _].
    destruct (Checked.step accepts st l) as [st'|].
    + destruct S as [-> Ha']. apply (IH _ Hk' Ha').
    + apply forallb_false_In in S as (p & Hp & Fp).
      destruct (run_keeps ls _ Hk') as [_ I].
      assert (E : forallb (acceptable accepts)
                    (all_paragraphs (run (step st l) ls)) = false)
        by (apply forallb_false_In; exists p; split; [apply I, Hp | exact Fp]).
      unfold run in E; rewrite E; reflexivity.
Qed.

Lemma paragraphs_of_finish (st : state) :
  list_kept st -> paragraphs_of (finish st) = all_paragraphs st.
Proof.
  intros H; unfold finish, all_paragraphs.
  destruct (in_list st) eqn:E; cbn [andb].
  - destruct (list_items st); cbn [truthy];
      [rewrite app_nil_r; reflexivity|].
    rewrite paragraphs_of_app. cbn [paragraphs_of flat_map].
    rewrite app_nil_r; reflexivity.
  - rewrite (H E), app_nil_r; reflexivity.
Qed.

(** The call raises exactly when the constructor rejects one of the
    paragraphs of the unchecked result; otherwise it returns that
    result. *)
Lemma parse_lines_checked (lines : list text) :
  Checked.parse_lines accepts lines =
    if forallb (acceptable accepts) (paragraphs_of (parse_lines lines))
    then Some (parse_lines lines) else None.
Proof.
  unfold Checked.parse_lines, parse_lines.
  assert (K : list_kept initial) by (intros _; reflexivity).
  rewrite (run_checked lines initial K eq_refl).
  rewrite paragraphs_of_finish by (apply run_keeps, K).
  destruct (forallb _ _); reflexivity.
Qed.


(** Outside code mode, on a line that is not blank and on which no
    structural test holds, the iteration calls the constructor on the
    formatted trimmed line, in the body style. *)
Lemma step_checked_paragraph (st : state) (line : text) :
  in_code_block st = false ->
  structural line = false ->
  Str.strip line <> [] ->
  Checked.step accepts st line =
    if accepts (_format_inline (Str.strip line)) CustomBody
    then Some (emit [Para (Paragraph (_format_inline (Str.strip line))
                             CustomBody);
                     Spacer 1 5] (flush_list st))
    else None.
Proof.
  intros Hin Hs Hne. unfold structural in Hs.
  repeat (apply orb_false_iff in Hs; destruct Hs as [Hs ?]).
  unfold Checked.step, Checked.new_paragraph. rewrite Hs, Hin.
  repeat match goal with H : _ = false |- _ => rewrite H; clear H end.
  rewrite ParseFacts.text_eqb_neq by exact Hne. rewrite andb_false_r.
  destruct (Str.strip line); [contradiction|]. cbn [truthy].
  destruct (accepts _ _); reflexivity.
Qed.

Lemma parse_checked_paragraph (line : text) :
  structural line = false ->
  Str.strip line <> [] ->
  Checked.parse_lines accepts [line] =
    if accepts (_format_inline (Str.strip line)) CustomBody
    then Some [Para (Paragraph (_format_inline (Str.strip line)) CustomBody);
               Spacer 1 5]
    else None.
Proof.
  intros Hs Hne. unfold Checked.parse_lines. cbn [Checked.run].
  rewrite (step_checked_paragraph initial line eq_refl Hs Hne).
  destruct (accepts _ _); reflexivity.
Qed.

End Bridge.

(** *** Texts without tags *)

Lemma scan_plain (s : text) :
  Forall (fun c => Ascii.eqb c "<" = false) s ->
  ReportLab.scan [] None s = true.
Proof.
  induction 1 as [|c s Hc _ IH]; [reflexivity|].
  cbn [ReportLab.scan]. rewrite Hc. exact IH.
Qed.

(** Tags closed in the order they were opened in are in order; crossed
    tags and a tag left open are not. *)
Lemma nested_examples :
  ReportLab.nested (str "<b><i>x</i></b> and <b>y</b>") = true /\
  ReportLab.nested (link_open ++ str "x" ++ link_close) = true /\
  ReportLab.nested (str "<b><i>x</b></i>") = false /\
  ReportLab.nested (str "<b>x") = false.
Proof. repeat split; reflexivity. Qed.

(** An escaped text holds no [<]: no tag is opened in it. *)
Lemma nested_escape (t : text) : ReportLab.nested (escape t) = true.
Proof.
  apply scan_plain. rewrite SafeFacts.escape_pointwise.
  induction t as [|c t IH]; [constructor|].
  cbn [flat_map]. apply Forall_app; split; [|exact IH].
  unfold entity.
  destruct (Ascii.eqb_spec "&" c); [repeat constructor|].
  destruct (Ascii.eqb_spec "<" c) as [|Hlt]; [repeat constructor|].
  destruct (Ascii.eqb_spec ">" c); [repeat constructor|].
  constructor; [|constructor].
  apply Ascii.eqb_neq. intros E; apply Hlt; symmetry; exact E.
Qed.

(** *** Trimmed lines *)






(** *** Plain lines *)

(** A line without marker characters that is not blank, is not a
    heading line, and whose trimmed content begins with neither [-] nor
    [+], passes no structural test. *)
Lemma plain_not_structural (t : text) :
  marker_free t ->
  Str.strip t <> [] ->
  is_heading_line t = false ->
  Str.startswith_any (Str.strip t) [str "-"; str "+"] = false ->
  structural t = false.
Proof.
  intros Hm Hne Hh Hl. apply ParseFacts.strip_marker_free in Hm.
  unfold structural. unfold is_heading_line in Hh.
  repeat (apply orb_false_iff in Hh; destruct Hh as [Hh ?]).
  destruct (Str.strip t) as [|c s]; [contradiction|].
  inversion Hm as [|? ? Hc _]; subst. unfold is_marker in Hc.
  repeat (apply orb_false_iff in Hc; destruct Hc as [Hc ?]).
  repeat match goal with
    | H : Ascii.eqb c _ = false |- _ => apply Ascii.eqb_neq in H
    end.
  unfold Str.startswith_any, list_markers, fence, rules in *.
  cbn [existsb str list_ascii_of_string] in *.
  repeat (apply orb_false_iff in Hl; destruct Hl as [Hl ?]).
  rewrite orb_false_r in *. rewrite Hl.
  repeat match goal with H : Str.startswith _ _ = false |- _ =>
    rewrite H end.
  rewrite !StrFacts.startswith_head by (intros E; subst c; congruence).
  rewrite !ParseFacts.text_eqb_neq; [reflexivity | | |];
    intros E; inversion E; subst c; try congruence.
  discriminate Hl.
Qed.

(** C9, as the code has it.  On text without the marker characters
    backtick, [*], [_], [[] and []], [_format_inline] is the escaping of
    [&], [<] and [>] and nothing else, which maps every character to its
    entity.  On such a line, when it is not blank, is not a heading line
    and its trimmed content begins with neither [-] nor [+], the parser
    calls the paragraph constructor once, on the escaping of the trimmed
    line, and returns exactly that paragraph (and its spacer) when the
    constructor returns.  The text holds no tag, so that its nesting of
    tags is in order. *)
Theorem C9_plain_line (accepts : text -> style -> bool) (t : text) :
  marker_free t ->
  _format_inline t = escape t /\
  escape t = flat_map entity t /\
  (Str.strip t <> [] ->
   is_heading_line t = false ->
   Str.startswith_any (Str.strip t) [str "-"; str "+"] = false ->
   Checked.parse_lines accepts [t] =
     if accepts (escape (Str.strip t)) CustomBody
     then Some [Para (Paragraph (escape (Str.strip t)) CustomBody);
                Spacer 1 5]
     else None) /\
  ReportLab.nested (escape (Str.strip t)) = true.
Proof.
  intros H; split; [apply InlineFacts.format_inline_marker_free, H|].
  split; [apply SafeFacts.escape_pointwise|].
  split; [|apply nested_escape].
  intros Hne Hh Hl.
  rewrite parse_checked_paragraph
    by (try apply plain_not_structural; assumption).
  rewrite InlineFacts.format_inline_marker_free
    by (apply ParseFacts.strip_marker_free, H).
  reflexivity.
Qed.

(** C9 on the line [" 1 < 2 "]: the paragraph holds ["1 &lt; 2"]. *)
Lemma C9_plain_line_witness :
  marker_free (str " 1 < 2 ") /\
  _format_inline (str " 1 < 2 ") = escape (str " 1 < 2 ") /\
  Checked.parse_lines ReportLab.accepts [str " 1 < 2 "] =
    Some [Para (Paragraph (str "1 &lt; 2") CustomBody); Spacer 1 5].
Proof.
  assert (H : marker_free (str " 1 < 2 ")) by (repeat constructor).
  split; [exact H|].
  destruct (C9_plain_line ReportLab.accepts (str " 1 < 2 ") H)
    as (E & _ & P & _).
  split; [exact E|].
  rewrite P; [reflexivity | discriminate | reflexivity | reflexivity].
Defined.

(** C9 as the specification words it, with the text of the paragraph the
    escaping of the line itself, fails on a line with a leading blank:
    the paragraph holds the trimmed line. *)
Lemma C9_untrimmed_counterexample :
  marker_free (str " a") /\
  structural (str " a") = false /\
  Str.strip (str " a") <> [] /\
  Checked.parse_lines ReportLab.accepts [str " a"] =
    Some [Para (Paragraph (str "a") CustomBody); Spacer 1 5] /\
  Checked.parse_lines ReportLab.accepts [str " a"] <>
    Some [Para (Paragraph (escape (str " a")) CustomBody); Spacer 1 5].
Proof.
  split; [repeat constructor|]. split; [reflexivity|].
  split; [discriminate|]. split; [reflexivity|].
  vm_compute; discriminate.
Qed.

(** *** Indented headings *)







(** *** List items *)

Lemma items_are_paragraphs (fs : list flowable) :
  incl (items_of fs) (paragraphs_of fs).
Proof.
  induction fs as [|f fs IH]; [apply incl_refl|].
  unfold items_of, paragraphs_of in *; cbn [flat_map].
  intros p Hp. apply in_app_iff in Hp. apply in_app_iff.
  destruct Hp as [Hp|Hp]; [left | right; apply IH, Hp].
  destruct f; try contradiction. exact Hp.
Qed.

(** X6. In a document without fence lines no list item is lost and
    none is made up.  When the call returns, the items of all the lists
    of the result, in order, are the items of the lines that pass the
    list test, in order; it returns when the constructor accepts every
    paragraph of the document, and it raises when the constructor
    rejects the item of one of these lines. *)
Theorem list_items_preserved (accepts : text -> style -> bool)
  (lines : list text) :
  Forall (fun l => is_fence l = false) lines ->
  (forall fs, Checked.parse_lines accepts lines = Some fs ->
     items_of fs = map list_item (filter is_list_line lines)) /\
  (forallb (acceptable accepts) (paragraphs_of (parse_lines lines)) = true ->
   exists fs, Checked.parse_lines accepts lines = Some fs) /\
  (Exists (fun l => is_list_line l = true /\
                    acceptable accepts (list_item l) = false) lines ->
   Checked.parse_lines accepts lines = None).
Proof.
  intros H. rewrite parse_lines_checked.
  pose proof (ParseMore.items_of_parse_lines lines H) as E.
  split; [|split].
  - intros fs. destruct (forallb _ _); [|discriminate].
    intros F; injection F as <-. exact E.
  - intros ->. eexists; reflexivity.
  - intros X. apply Exists_exists in X as (l & Hl & Ll & Al).
    assert (F : forallb (acceptable accepts)
                  (paragraphs_of (parse_lines lines)) = false).
    { apply forallb_false_In. exists (list_item l). split; [|exact Al].
      apply items_are_paragraphs. rewrite E.
      apply in_map, filter_In. split; assumption. }
    rewrite F; reflexivity.
Qed.

(** X6 on two lists around a paragraph and a blank line. *)
Lemma list_items_preserved_witness :
  exists fs,
    Checked.parse_lines ReportLab.accepts
      [str "- a"; str "text"; str "* b"; []; str "+ c"] = Some fs /\
    items_of fs =
      [Paragraph (str "a") CustomBody; Paragraph (str "b") CustomBody;
       Paragraph (str "c") CustomBody].
Proof.
  destruct (list_items_preserved ReportLab.accepts
              [str "- a"; str "text"; str "* b"; []; str "+ c"])
    as (I & R & _); [repeat constructor|].
  destruct (R eq_refl) as [fs E]. exists fs. split; [exact E|].
  rewrite (I fs E). reflexivity.
Defined.

(** *** Headings *)

(** X7. The three heading levels: the text after the marker is trimmed
    and formatted, and the constructor is called on it in the style of
    the level; when the three calls return, each heading is followed by
    its spacer, and the heading of level 2 is preceded by a page break.
    When one of them raises, so does the parser. *)
Theorem heading_levels (accepts : text -> style -> bool) (a b c : text) :
  Checked.parse_lines accepts
    [str "# " ++ a; str "## " ++ b; str "### " ++ c] =
    if accepts (_format_inline (Str.strip a)) Heading1
       && accepts (_format_inline (Str.strip b)) Heading2
       && accepts (_format_inline (Str.strip c)) Heading3
    then
      Some [Para (Paragraph (_format_inline (Str.strip a)) Heading1);
            Spacer 1 15;
            PageBreak;
            Para (Paragraph (_format_inline (Str.strip b)) Heading2);
            Spacer 1 12;
            Para (Paragraph (_format_inline (Str.strip c)) Heading3);
            Spacer 1 10]
    else None.
Proof.
  rewrite parse_lines_checked, ParseMore.heading_levels_flowables.
  cbn [paragraphs_of flat_map app forallb]. unfold acceptable.
  cbn [para_text para_style]. rewrite andb_true_r, andb_assoc.
  reflexivity.
Qed.

(** X8. There is no heading of level 4 or more: a line of four or more
    hashes, a space and a text passes none of the heading tests.
    Outside code mode the parser calls the constructor on the formatted
    trimmed line, in the body style, and that text begins with the
    hashes; when the call returns, a pending list is appended as a
    [ListFlowable] of its items, list mode is left, and the paragraph
    and its spacer follow. *)
Theorem deep_heading_is_paragraph (accepts : text -> style -> bool)
  (k : nat) (rest : text) :
  4 <= k ->
  let line := hashes k ++ " "%char :: rest in
  let body := _format_inline (Str.strip line) in
  is_heading_line line = false /\
  (exists r, body = hashes k ++ r) /\
  (forall st,
     in_code_block st = false -> in_list st = true -> list_items st <> [] ->
     Checked.step accepts st line =
       if accepts body CustomBody
       then Some {| flowables := flowables st ++
                      [ListFlowable (list_items st) bullet None;
                       Para (Paragraph body CustomBody); Spacer 1 5];
                    in_code_block := false;
                    code_block_lines := code_block_lines st;
                    in_list := false; list_items := [] |}
       else None) /\
  (forall st,
     in_code_block st = false -> in_list st = false ->
     Checked.step accepts st line =
       if accepts body CustomBody
       then Some {| flowables := flowables st ++
                      [Para (Paragraph body CustomBody); Spacer 1 5];
                    in_code_block := false;
                    code_block_lines := code_block_lines st;
                    in_list := false; list_items := list_items st |}
       else None) /\
  Checked.parse_lines accepts [line] =
    (if accepts body CustomBody
     then Some [Para (Paragraph body CustomBody); Spacer 1 5]
     else None).
Proof.
  intros Hk line body.
  destruct k as [|[|[|[|k]]]]; try (exfalso; lia).
  assert (Hs : Str.strip line =
               hashes (4 + k) ++ Str.rstrip (" "%char :: rest))
    by apply (ParseMore.strip_hashes (3 + k)).
  assert (Hst : structural line = false).
  { unfold structural. rewrite Hs.
    unfold line, hashes; cbn [repeat app Nat.add].
    unfold Str.startswith_any, list_markers, fence, rules.
    cbn [existsb str list_ascii_of_string].
    rewrite !ParseFacts.text_eqb_neq by discriminate.
    reflexivity. }
  assert (Hne : Str.strip line <> []) by (rewrite Hs; discriminate).
  split; [reflexivity|]. split.
  { unfold body. rewrite Hs.
    apply InlineFacts.format_inline_prefix, ParseMore.hashes_inert. }
  split; [|split].
  - intros st Hc Hl Hi.
    rewrite (step_checked_paragraph accepts st line Hc Hst Hne).
    fold body. rewrite (ParseFacts.flush_list_open st Hl Hi).
    unfold emit, close_list.
    cbn [flowables in_code_block code_block_lines in_list list_items].
    rewrite Hc, <- app_assoc. reflexivity.
  - intros st Hc Hl.
    rewrite (step_checked_paragraph accepts st line Hc Hst Hne).
    fold body. unfold flush_list. rewrite Hl. cbn [andb].
    unfold emit. rewrite Hc, Hl. reflexivity.
  - apply parse_checked_paragraph; assumption.
Qed.

(** X8 on a line of four hashes after a list item. *)
Lemma deep_heading_is_paragraph_witness :
  Checked.parse_lines ReportLab.accepts [str "- a"; str "#### Deep"] =
    Some [ListFlowable [Paragraph (str "a") CustomBody] bullet None;
          Para (Paragraph (str "#### Deep") CustomBody); Spacer 1 5].
Proof.
  destruct (deep_heading_is_paragraph ReportLab.accepts 4 (str "Deep"))
    as (_ & _ & E & _); [lia|].
  unfold Checked.parse_lines. cbn [Checked.run].
  change (Checked.step ReportLab.accepts initial (str "- a"))
    with (Some {| flowables := []; in_code_block := false;
                  code_block_lines := []; in_list := true;
                  list_items := [Paragraph (str "a") CustomBody] |}).
  cbv beta iota.
  change (str "#### Deep") with (hashes 4 ++ " "%char :: str "Deep").
  rewrite E; [reflexivity | reflexivity | reflexivity | discriminate].
Defined.

(** *** The marker of a list item *)

(** X9. Outside code mode, on a line whose trimmed content is a marker
    [-], [*] or [+], some whitespace and a text, the parser calls the
    constructor on the formatted text, the marker and the whitespace
    removed; when the call returns, the paragraph joins the pending
    list, or opens one, and when it raises, so does the parser. *)
Theorem list_item_of_marked_line (accepts : text -> style -> bool)
  (st : state) (line : text) (m d : ascii) (ws x : text) :
  in_code_block st = false ->
  Str.strip line = m :: (ws ++ [d]) ++ x ->
  is_list_marker m = true ->
  Forall (fun c => Str.isspace c = true) (ws ++ [d]) ->
  match x with [] => True | c :: _ => Str.isspace c = false end ->
  Checked.step accepts st line =
    if accepts (_format_inline x) CustomBody
    then Some {| flowables := flowables st;
                 in_code_block := false;
                 code_block_lines := code_block_lines st;
                 in_list := true;
                 list_items :=
                   (if in_list st then list_items st else [])
                   ++ [Paragraph (_format_inline x) CustomBody] |}
    else None.
Proof.
  intros Hc Hs Hm Hws Hx. unfold Checked.step, Checked.new_paragraph.
  rewrite Hs, Hc.
  assert (F : Str.startswith (m :: (ws ++ [d]) ++ x) fence = false).
  { apply StrFacts.startswith_head. intros <-. discriminate Hm. }
  assert (L : Str.startswith_any (m :: (ws ++ [d]) ++ x) list_markers = true).
  { unfold is_list_marker in Hm.
    repeat (apply orb_true_iff in Hm; destruct Hm as [Hm|Hm]);
      apply Ascii.eqb_eq in Hm; subst m; reflexivity. }
  rewrite F, L, (ParseMore.list_marker_removed m d ws x Hm Hws Hx).
  destruct (accepts _ _); [|reflexivity].
  destruct (in_list st); reflexivity.
Qed.

(** X9 on an indented line with a plus sign. *)
Lemma list_item_of_marked_line_witness :
  Checked.parse_lines ReportLab.accepts [str "  +   two  words "] =
    Some [ListFlowable [Paragraph (str "two  words") CustomBody] bullet None].
Proof.
  unfold Checked.parse_lines; cbn [Checked.run].
  rewrite (list_item_of_marked_line ReportLab.accepts initial
             (str "  +   two  words ") "+" " " (str "  ")
             (str "two  words"));
    [reflexivity | reflexivity | reflexivity | reflexivity
    | repeat constructor | reflexivity].
Defined.

End CheckedFacts.
